(** * corezoid/sdk-python: signed-request construction and batch correlation

    A shallow embedding of [corezoid/utils.py], [corezoid/operations.py],
    [corezoid/batch.py], [corezoid/http.py], [corezoid/client.py] and
    [corezoid/config.py].

    Conventions.
    - A Python [str] is the list of its Unicode code points ([N]); [bytes] is a
      list of octets ([N] below 256).
    - A Python [int] is a [Z]; [str] of an int is its decimal writing (the
      interpreter's bound on the number of digits of such a conversion is not
      part of the embedding).
    - JSON-like Python data ([Dict[str, Any]], lists, strings, ints, booleans,
      [None]) is the inductive [value]; a [dict] keeps insertion order, as
      Python's does.  Floating-point numbers are not part of the embedding.
    - A raised exception is a value of [exn]; a function that may raise returns
      a [result]. *)

From Stdlib Require Import String Ascii.
From Stdlib Require Import List NArith ZArith Lia Bool.
From Stdlib Require Import DecimalPos DecimalN.
Import ListNotations.

Local Open Scope N_scope.
Local Open Scope list_scope.

(* ================================================================== *)
(** ** Python strings *)

Definition str := list N.
Definition bytes := list N.

(** An ASCII literal of the source. *)
Definition lit (s : string) : str := map N_of_ascii (list_ascii_of_string s).

(** A literal of the source that contains double quotes, written here with
    single quotes in their place. *)
Definition qlit (s : string) : str :=
  map (fun c => if c =? 39 then 34 else c) (lit s).

Fixpoint str_eqb (a b : str) : bool :=
  match a, b with
  | [], [] => true
  | x :: a', y :: b' => (x =? y) && str_eqb a' b'
  | _, _ => false
  end.

(** [sep.join(parts)] *)
Fixpoint join (sep : str) (parts : list str) : str :=
  match parts with
  | [] => []
  | [p] => p
  | p :: rest => p ++ sep ++ join sep rest
  end.

(** Decimal digits of a [Decimal.uint], most significant first. *)
Fixpoint uint_codes (u : Decimal.uint) : str :=
  match u with
  | Decimal.Nil => []
  | Decimal.D0 u' => 48 :: uint_codes u'
  | Decimal.D1 u' => 49 :: uint_codes u'
  | Decimal.D2 u' => 50 :: uint_codes u'
  | Decimal.D3 u' => 51 :: uint_codes u'
  | Decimal.D4 u' => 52 :: uint_codes u'
  | Decimal.D5 u' => 53 :: uint_codes u'
  | Decimal.D6 u' => 54 :: uint_codes u'
  | Decimal.D7 u' => 55 :: uint_codes u'
  | Decimal.D8 u' => 56 :: uint_codes u'
  | Decimal.D9 u' => 57 :: uint_codes u'
  end.

Definition str_of_N (n : N) : str := uint_codes (N.to_uint n).

(** [str(z)] for a Python [int]. *)
Definition str_of_int (z : Z) : str :=
  match z with
  | Z0 => str_of_N 0
  | Zpos p => str_of_N (Npos p)
  | Zneg p => 45 :: str_of_N (Npos p)
  end.

(** The lowercase hexadecimal digit of a nibble. *)
Definition hex_digit (n : N) : N :=
  let d := n mod 16 in if d <? 10 then 48 + d else 87 + d.

(** The [k] least significant nibbles of [n], most significant first:
    ['%0kx' % n] for [n < 16^k]. *)
Fixpoint hex_fixed (k : nat) (n : N) : str :=
  match k with
  | O => []
  | S k' => hex_fixed k' (n / 16) ++ [hex_digit n]
  end.

Definition is_digit (c : N) : bool := (48 <=? c) && (c <=? 57).
Definition is_lower_hex (c : N) : bool :=
  is_digit c || ((97 <=? c) && (c <=? 102)).
Definition is_ascii_char (c : N) : bool := c <? 128.
Definition isascii (s : str) : bool := forallb is_ascii_char s.

(* ================================================================== *)
(** ** Exceptions and results *)

Inductive exn : Type :=
| ValueError (msg : str)
| TypeError (msg : str)
| AttributeError
| UnicodeEncodeError
| JSONDecodeError
| ValidationError (msg : str)
| APIError (message : str) (code : option Z) (response : option str)
| ConnectionError (msg : str).

Inductive result (A : Type) : Type :=
| Ok (a : A)
| Raise (e : exn).
Arguments Ok {A} a.
Arguments Raise {A} e.

Definition rbind {A B} (r : result A) (k : A -> result B) : result B :=
  match r with
  | Ok a => k a
  | Raise e => Raise e
  end.

(* ================================================================== *)
(** ** JSON-like values *)

#[local] Unset Elimination Schemes.
Inductive value : Type :=
| VNone
| VBool (b : bool)
| VInt (z : Z)
| VStr (s : str)
| VList (l : list value)
| VDict (d : list (str * value)).
#[local] Set Elimination Schemes.

Definition dict := list (str * value).

(** [d.get(key)]: [None] of Python is [VNone], also for a missing key. *)
Fixpoint dict_find (key : str) (d : dict) : option value :=
  match d with
  | [] => None
  | (k, v) :: d' => if str_eqb k key then Some v else dict_find key d'
  end.

Definition dict_get (key : str) (d : dict) : value :=
  match dict_find key d with
  | Some v => v
  | None => VNone
  end.

(** [d.get(key, default)] *)
Definition dict_get_default (key : str) (default : value) (d : dict) : value :=
  match dict_find key d with
  | Some v => v
  | None => default
  end.

(** [key in d] *)
Definition dict_mem (key : str) (d : dict) : bool :=
  match dict_find key d with
  | Some _ => true
  | None => false
  end.

(** [d[key] = v]: an existing key keeps its place, a new one goes last. *)
Fixpoint dict_set (key : str) (v : value) (d : dict) : dict :=
  match d with
  | [] => [(key, v)]
  | (k, v') :: d' =>
      if str_eqb k key then (k, v) :: d' else (k, v') :: dict_set key v d'
  end.

Definition dict_keys (d : dict) : list str := map fst d.

(** [x == s] for a string [s]: only an equal string is equal to a string. *)
Definition value_eq_str (x : value) (s : str) : bool :=
  match x with
  | VStr s' => str_eqb s' s
  | _ => false
  end.

(* ================================================================== *)
(** ** utils.py: [to_json]

    [json.dumps(data, separators=(',', ':'))] with the defaults of the other
    options: [ensure_ascii=True], [indent=None], [sort_keys=False]. *)

(** [json.encoder.py_encode_basestring_ascii] on one code point: the
    backslash, the double quote and whatever is outside [' '..'~'] is
    escaped; a code point above the basic plane becomes a surrogate pair. *)
Definition escape_char (c : N) : str :=
  if c =? 34 then [92; 34]
  else if c =? 92 then [92; 92]
  else if c =? 8 then [92; 98]
  else if c =? 12 then [92; 102]
  else if c =? 10 then [92; 110]
  else if c =? 13 then [92; 114]
  else if c =? 9 then [92; 116]
  else if (32 <=? c) && (c <=? 126) then [c]
  else if c <? 65536 then [92; 117] ++ hex_fixed 4 c
  else
    let n := c - 65536 in
    let s1 := N.lor 55296 (N.land (N.shiftr n 10) 1023) in
    let s2 := N.lor 56320 (N.land n 1023) in
    [92; 117] ++ hex_fixed 4 s1 ++ [92; 117] ++ hex_fixed 4 s2.

Definition encode_basestring_ascii (s : str) : str :=
  [34] ++ flat_map escape_char s ++ [34].

Fixpoint json_dumps (item_separator key_separator : str) (v : value) : str :=
  match v with
  | VNone => lit "null"
  | VBool true => lit "true"
  | VBool false => lit "false"
  | VInt z => str_of_int z
  | VStr s => encode_basestring_ascii s
  | VList l =>
      [91] ++ join item_separator
                (map (json_dumps item_separator key_separator) l) ++ [93]
  | VDict d =>
      [123] ++ join item_separator
                 (map (fun kv =>
                         encode_basestring_ascii (fst kv) ++ key_separator ++
                         json_dumps item_separator key_separator (snd kv)) d)
            ++ [125]
  end.

Definition to_json (data : value) : str := json_dumps [44] [58] data.

(** [json.dumps(data)] with the default separators [(', ', ': ')]. *)
Definition json_dumps_default (data : value) : str :=
  json_dumps [44; 32] [58; 32] data.


(* ================================================================== *)
(** ** SHA-256 and HMAC, as [hashlib.sha256] and [hmac.new] compute them

    Words are 32-bit, kept in [N] with the wrap-around written out. *)

Module SHA256.

Definition add32 (x y : N) : N := (x + y) mod 4294967296.
Definition rotr (n x : N) : N :=
  N.lor (N.shiftr x n) ((N.shiftl x (32 - n)) mod 4294967296).
Definition not32 (x : N) : N := N.lxor (x mod 4294967296) 4294967295.

Definition Ch (x y z : N) : N := N.lxor (N.land x y) (N.land (not32 x) z).
Definition Maj (x y z : N) : N :=
  N.lxor (N.lxor (N.land x y) (N.land x z)) (N.land y z).
Definition bsig0 (x : N) : N := N.lxor (N.lxor (rotr 2 x) (rotr 13 x)) (rotr 22 x).
Definition bsig1 (x : N) : N := N.lxor (N.lxor (rotr 6 x) (rotr 11 x)) (rotr 25 x).
Definition ssig0 (x : N) : N := N.lxor (N.lxor (rotr 7 x) (rotr 18 x)) (N.shiftr x 3).
Definition ssig1 (x : N) : N := N.lxor (N.lxor (rotr 17 x) (rotr 19 x)) (N.shiftr x 10).

(** Value of a hexadecimal digit character. *)
Definition hex_val (c : N) : N :=
  if c <? 58 then c - 48 else c - 87.

Definition word_of_hex (cs : str) : N :=
  fold_left (fun acc c => 16 * acc + hex_val c) cs 0.

(** Cuts a list into pieces of [n] elements (the last one may be shorter). *)
Fixpoint chunks_fuel {A} (fuel n : nat) (l : list A) : list (list A) :=
  match fuel with
  | O => []
  | S fuel' =>
      match l with
      | [] => []
      | _ => firstn n l :: chunks_fuel fuel' n (skipn n l)
      end
  end.
Definition chunks {A} (n : nat) (l : list A) : list (list A) :=
  chunks_fuel (length l) n l.

Definition words_of_hex (s : string) : list N :=
  map word_of_hex (chunks 8 (lit s)).

(** The round constants: the fractional parts of the cube roots of the first
    sixty-four primes. *)
Definition K : list N := words_of_hex
  ("428a2f9871374491b5c0fbcfe9b5dba53956c25b59f111f1923f82a4ab1c5ed5" ++
   "d807aa9812835b01243185be550c7dc372be5d7480deb1fe9bdc06a7c19bf174" ++
   "e49b69c1efbe47860fc19dc6240ca1cc2de92c6f4a7484aa5cb0a9dc76f988da" ++
   "983e5152a831c66db00327c8bf597fc7c6e00bf3d5a7914706ca635114292967" ++
   "27b70a852e1b21384d2c6dfc53380d13650a7354766a0abb81c2c92e92722c85" ++
   "a2bfe8a1a81a664bc24b8b70c76c51a3d192e819d6990624f40e3585106aa070" ++
   "19a4c1161e376c082748774c34b0bcb5391c0cb34ed8aa4a5b9cca4f682e6ff3" ++
   "748f82ee78a5636f84c878148cc7020890befffaa4506cebbef9a3f7c67178f2")%string.

(** The eight working words. *)
Record state : Type := mkState {
  wa : N; wb : N; wc : N; wd : N; we : N; wf : N; wg : N; wh : N
}.

(** The initial hash value: from the square roots of the first eight primes. *)
Definition H0 : state :=
  mkState 0x6a09e667 0xbb67ae85 0x3c6ef372 0xa54ff53a
          0x510e527f 0x9b05688c 0x1f83d9ab 0x5be0cd19.

Definition be32 (bs : list N) : N :=
  fold_left (fun acc b => 256 * acc + b) bs 0.

Definition word_bytes (w : N) : bytes :=
  [(w / 16777216) mod 256; (w / 65536) mod 256; (w / 256) mod 256; w mod 256].

(** Message padding: a one bit, zeros up to 56 modulo 64, and the length in
    bits on eight octets. *)
Definition pad (msg : bytes) : bytes :=
  let len := N.of_nat (length msg) in
  let zeros := N.to_nat ((119 - len mod 64) mod 64) in
  let bits := 8 * len in
  msg ++ [128] ++ repeat 0 zeros ++
  word_bytes ((bits / 4294967296) mod 4294967296) ++
  word_bytes (bits mod 4294967296).

(** The message schedule: sixteen words of the block, extended to
    sixty-four. *)
Fixpoint extend (n : nat) (ws : list N) : list N :=
  match n with
  | O => ws
  | S n' =>
      let t := length ws in
      let w := add32 (add32 (ssig1 (nth (t - 2) ws 0)) (nth (t - 7) ws 0))
                     (add32 (ssig0 (nth (t - 15) ws 0)) (nth (t - 16) ws 0)) in
      extend n' (ws ++ [w])
  end.

Definition schedule (block : bytes) : list N :=
  extend 48 (map be32 (chunks 4 block)).

Definition round (s : state) (kw : N * N) : state :=
  let t1 := add32 (add32 (add32 (wh s) (bsig1 (we s)))
                         (add32 (Ch (we s) (wf s) (wg s)) (fst kw))) (snd kw) in
  let t2 := add32 (bsig0 (wa s)) (Maj (wa s) (wb s) (wc s)) in
  mkState (add32 t1 t2) (wa s) (wb s) (wc s)
          (add32 (wd s) t1) (we s) (wf s) (wg s).

Definition compress (h : state) (block : bytes) : state :=
  let s := fold_left round (combine K (schedule block)) h in
  mkState (add32 (wa h) (wa s)) (add32 (wb h) (wb s))
          (add32 (wc h) (wc s)) (add32 (wd h) (wd s))
          (add32 (we h) (we s)) (add32 (wf h) (wf s))
          (add32 (wg h) (wg s)) (add32 (wh h) (wh s)).

Definition state_bytes (s : state) : bytes :=
  word_bytes (wa s) ++ word_bytes (wb s) ++ word_bytes (wc s) ++
  word_bytes (wd s) ++ word_bytes (we s) ++ word_bytes (wf s) ++
  word_bytes (wg s) ++ word_bytes (wh s).

(** [hashlib.sha256(msg).digest()] *)
Definition digest (msg : bytes) : bytes :=
  state_bytes (fold_left compress (chunks 64 (pad msg)) H0).

Definition block_size : nat := 64.

End SHA256.

Module HMAC.

Definition xor_pad (p : N) (key : bytes) : bytes := map (N.lxor p) key.

(** [hmac.new(key, msg, hashlib.sha256).digest()]: a key longer than a block
    is hashed first, then the key is filled with zeros to a block. *)
Definition digest (key msg : bytes) : bytes :=
  let key1 :=
    if (SHA256.block_size <? length key)%nat then SHA256.digest key else key in
  let key2 := key1 ++ repeat 0 (SHA256.block_size - length key1) in
  let inner := SHA256.digest (xor_pad 54 key2 ++ msg) in
  SHA256.digest (xor_pad 92 key2 ++ inner).

(** [.hexdigest()] *)
Definition hexdigest (key msg : bytes) : str :=
  flat_map (hex_fixed 2) (digest key msg).

(** [hmac.compare_digest(a, b)] on two [str]: both must be ASCII, else
    [TypeError]; the answer is their equality. *)
Definition compare_digest (a b : str) : result bool :=
  if isascii a && isascii b then Ok (str_eqb a b)
  else Raise (TypeError
                (lit "comparing strings with non-ASCII characters is not supported")).

End HMAC.

(** [s.encode('utf-8')]: a surrogate code point cannot be encoded. *)
Definition utf8_char (c : N) : option bytes :=
  if c <? 128 then Some [c]
  else if c <? 2048 then Some [192 + c / 64; 128 + c mod 64]
  else if c <? 65536 then
    if (55296 <=? c) && (c <=? 57343) then None
    else Some [224 + c / 4096; 128 + (c / 64) mod 64; 128 + c mod 64]
  else if c <? 1114112 then
    Some [240 + c / 262144; 128 + (c / 4096) mod 64;
          128 + (c / 64) mod 64; 128 + c mod 64]
  else None.

Fixpoint encode_utf8 (s : str) : result bytes :=
  match s with
  | [] => Ok []
  | c :: s' =>
      match utf8_char c with
      | None => Raise UnicodeEncodeError
      | Some bs => rbind (encode_utf8 s') (fun rest => Ok (bs ++ rest))
      end
  end.

(* ================================================================== *)
(** ** utils.py: signatures *)

Definition generate_signature (api_secret timestamp content : str) : result str :=
  let message := timestamp ++ content in
  rbind (encode_utf8 api_secret) (fun key =>
  rbind (encode_utf8 message) (fun msg =>
  Ok (HMAC.hexdigest key msg))).

Definition verify_signature (signature api_secret timestamp content : str)
  : result bool :=
  rbind (generate_signature api_secret timestamp content)
        (fun expected_signature =>
           HMAC.compare_digest signature expected_signature).

(* ================================================================== *)
(** ** operations.py *)

(** A conveyor identifier: [Union[str, int]]. *)
Inductive conv_id_t : Type :=
| ConvInt (z : Z)
| ConvStr (s : str).

(** [str(conv_id)] *)
Definition py_str (conv_id : conv_id_t) : str :=
  match conv_id with
  | ConvInt z => str_of_int z
  | ConvStr s => s
  end.

Module RequestOperation.

Definition create (conv_id : conv_id_t) (ref : str) (data : dict) : dict :=
  [ (lit "type", VStr (lit "create"));
    (lit "conv_id", VStr (py_str conv_id));
    (lit "obj", VStr (lit "task"));
    (lit "ref", VStr ref);
    (lit "data", VDict data) ].

Definition modify_ref (conv_id : conv_id_t) (ref : str) (data : dict) : dict :=
  [ (lit "type", VStr (lit "modify"));
    (lit "conv_id", VStr (py_str conv_id));
    (lit "obj", VStr (lit "task"));
    (lit "ref", VStr ref);
    (lit "data", VDict data) ].

Definition modify_id (conv_id : conv_id_t) (obj_id : str) (data : dict) : dict :=
  [ (lit "type", VStr (lit "modify"));
    (lit "conv_id", VStr (py_str conv_id));
    (lit "obj", VStr (lit "task"));
    (lit "obj_id", VStr obj_id);
    (lit "data", VDict data) ].

Definition get (conv_id : conv_id_t) (ref : str) : dict :=
  [ (lit "type", VStr (lit "get"));
    (lit "conv_id", VStr (py_str conv_id));
    (lit "obj", VStr (lit "task"));
    (lit "ref", VStr ref) ].

Definition get_by_id (conv_id : conv_id_t) (obj_id : str) : dict :=
  [ (lit "type", VStr (lit "get"));
    (lit "conv_id", VStr (py_str conv_id));
    (lit "obj", VStr (lit "task"));
    (lit "obj_id", VStr obj_id) ].

End RequestOperation.

(** Truth value of an [Optional[Dict]] and of an [Optional[str]]: [None] and
    the empty container are false. *)
Definition truthy_dict (data : option dict) : bool :=
  match data with
  | Some (_ :: _) => true
  | _ => false
  end.

Definition truthy_str (s : option str) : bool :=
  match s with
  | Some (_ :: _) => true
  | _ => false
  end.

(** An optional argument as the Python object it is. *)
Definition value_of_opt_dict (data : option dict) : value :=
  match data with
  | Some d => VDict d
  | None => VNone
  end.

Definition value_of_opt_str (s : option str) : value :=
  match s with
  | Some s' => VStr s'
  | None => VNone
  end.

Module ResponseOperation.

Definition ok (conv_id : conv_id_t) (ref : str) (data : option dict) : dict :=
  let operation :=
    [ (lit "obj", VStr (lit "task"));
      (lit "proc", VStr (lit "ok"));
      (lit "conv_id", VStr (py_str conv_id));
      (lit "ref", VStr ref) ] in
  if truthy_dict data
  then dict_set (lit "data") (value_of_opt_dict data) operation
  else operation.

Definition error (conv_id : conv_id_t) (ref : str) (error_message : str)
                 (error_code : option str) : dict :=
  let operation :=
    [ (lit "obj", VStr (lit "task"));
      (lit "proc", VStr (lit "error"));
      (lit "conv_id", VStr (py_str conv_id));
      (lit "ref", VStr ref);
      (lit "error_message", VStr error_message) ] in
  if truthy_str error_code
  then dict_set (lit "error_code") (value_of_opt_str error_code) operation
  else operation.

End ResponseOperation.

(* ================================================================== *)
(** ** batch.py

    A method of the batch is a function of the object's state that gives the
    outcome of the call and the state the object is left in, also when the
    call raises. *)

Module OperationBatch.

Record t : Type := mk {
  operations : list dict;
  max_batch_size : Z
}.

(** [OperationBatch(max_batch_size)] *)
Definition init (max_batch_size : Z) : t := mk [] max_batch_size.

Definition method (A : Type) : Type := t -> result A * t.

Definition add (operation : dict) : method unit := fun self =>
  if (Z.of_nat (length (operations self)) >=? max_batch_size self)%Z
  then (Raise (ValueError (lit "Batch is full (max size: " ++
                           str_of_int (max_batch_size self) ++ lit ")")),
        self)
  else (Ok tt, mk (operations self ++ [operation]) (max_batch_size self)).

(** The reference [add_create] builds from the clock, [int(time.time())], and
    a fresh [uuid.uuid4()], given by its 128-bit integer. *)
Definition generated_ref (now : Z) (uuid : N) : str :=
  lit "task-" ++ str_of_int now ++ lit "-" ++ firstn 8 (hex_fixed 32 uuid).

(** [now] and [uuid] are what the clock and the generator give when they are
    asked, which is when [ref] is [None]. *)
Definition add_create (now : Z) (uuid : N)
    (conv_id : conv_id_t) (data : dict) (ref : option str) : method str :=
  fun self =>
    let ref :=
      match ref with
      | None => generated_ref now uuid
      | Some r => r
      end in
    let operation := RequestOperation.create conv_id ref data in
    match add operation self with
    | (Ok _, self') => (Ok ref, self')
    | (Raise e, self') => (Raise e, self')
    end.

Definition add_modify_ref (conv_id : conv_id_t) (ref : str) (data : dict)
  : method unit :=
  add (RequestOperation.modify_ref conv_id ref data).

Definition add_modify_id (conv_id : conv_id_t) (obj_id : str) (data : dict)
  : method unit :=
  add (RequestOperation.modify_id conv_id obj_id data).

Definition add_get (conv_id : conv_id_t) (ref : str) : method unit :=
  add (RequestOperation.get conv_id ref).

Definition add_get_by_id (conv_id : conv_id_t) (obj_id : str) : method unit :=
  add (RequestOperation.get_by_id conv_id obj_id).

Definition clear : method unit := fun self =>
  (Ok tt, mk [] (max_batch_size self)).

Definition is_empty (self : t) : bool :=
  (length (operations self) =? 0)%nat.

Definition is_full (self : t) : bool :=
  (Z.of_nat (length (operations self)) >=? max_batch_size self)%Z.

Definition size (self : t) : nat := length (operations self).

Definition get_operations (self : t) : list dict := operations self.

(** One call of a mutating method by the owner of the batch. *)
Inductive call : Type :=
| Add (operation : dict)
| AddCreate (now : Z) (uuid : N) (conv_id : conv_id_t) (data : dict)
            (ref : option str)
| AddModifyRef (conv_id : conv_id_t) (ref : str) (data : dict)
| AddModifyId (conv_id : conv_id_t) (obj_id : str) (data : dict)
| AddGet (conv_id : conv_id_t) (ref : str)
| AddGetById (conv_id : conv_id_t) (obj_id : str)
| Clear.

(** The state a call leaves the batch in, whether it returned or raised. *)
Definition exec (c : call) (self : t) : t :=
  match c with
  | Add op => snd (add op self)
  | AddCreate now uuid conv_id data ref =>
      snd (add_create now uuid conv_id data ref self)
  | AddModifyRef conv_id ref data => snd (add_modify_ref conv_id ref data self)
  | AddModifyId conv_id obj_id data => snd (add_modify_id conv_id obj_id data self)
  | AddGet conv_id ref => snd (add_get conv_id ref self)
  | AddGetById conv_id obj_id => snd (add_get_by_id conv_id obj_id self)
  | Clear => snd (clear self)
  end.

Definition exec_all (cs : list call) (self : t) : t :=
  fold_left (fun b c => exec c b) cs self.

(** [for op in ops: batch.add(op)], stopping at the first call that raises. *)
Fixpoint add_all (ops : list dict) : method unit := fun self =>
  match ops with
  | [] => (Ok tt, self)
  | op :: rest =>
      match add op self with
      | (Ok _, self') => add_all rest self'
      | (Raise e, self') => (Raise e, self')
      end
  end.

End OperationBatch.

(** The pattern [task-<digits>-<8 lowercase hex chars>]. *)
Fixpoint strip_prefix (p s : str) : option str :=
  match p, s with
  | [], _ => Some s
  | a :: p', b :: s' => if a =? b then strip_prefix p' s' else None
  | _ :: _, [] => None
  end.

Fixpoint take_while (f : N -> bool) (s : str) : str :=
  match s with
  | c :: s' => if f c then c :: take_while f s' else []
  | [] => []
  end.

Fixpoint drop_while (f : N -> bool) (s : str) : str :=
  match s with
  | c :: s' => if f c then drop_while f s' else s
  | [] => []
  end.

Definition matches_task_ref (s : str) : bool :=
  match strip_prefix (lit "task-") s with
  | None => false
  | Some rest =>
      match take_while is_digit rest, drop_while is_digit rest with
      | _ :: _, 45 :: tail =>
          (length tail =? 8)%nat && forallb is_lower_hex tail
      | _, _ => false
      end
  end.

(* ================================================================== *)
(** ** Effects of the client: logging, the clock, signing, the network

    A computation of the client gives the events it performed, in order, and
    how it ended. *)

Inductive log_level : Type := DEBUG | WARNING | ERROR.

Definition headers_t := list (str * str).

Inductive event : Type :=
| EvLog (level : log_level)
| EvClock
| EvSign (timestamp content : str)
| EvPost (url body : str) (headers : headers_t).

Definition io (A : Type) : Type := (list event * result A)%type.

Definition ret {A} (a : A) : io A := ([], Ok a).
Definition raise {A} (e : exn) : io A := ([], Raise e).
Definition emit (ev : event) : io unit := ([ev], Ok tt).
Definition lift {A} (r : result A) : io A := ([], r).

Definition bind {A B} (m : io A) (k : A -> io B) : io B :=
  match m with
  | (tr, Ok a) => let (tr', r) := k a in (tr ++ tr', r)
  | (tr, Raise e) => (tr, Raise e)
  end.

(** [try: m except Exception as e: handler e] *)
Definition try_except {A} (m : io A) (handler : exn -> io A) : io A :=
  match m with
  | (tr, Ok a) => (tr, Ok a)
  | (tr, Raise e) => let (tr', r) := handler e in (tr ++ tr', r)
  end.

Notation "x <- m ;; k" := (bind m (fun x => k))
  (at level 61, m at next level, right associativity).
Notation "m ;;; k" := (bind m (fun _ => k))
  (at level 61, right associativity).

(** An exception of Python itself that the library raises on arguments it
    refuses, before anything is sent: [ValueError] for a timeout that is not
    positive, [UnicodeEncodeError] for a header that is not Latin-1,
    [TypeError] for an argument of another type.  None of them is a
    [RequestException], and none is an exception of [exceptions.py]. *)
Inductive builtin_error : Type :=
| BuiltinValueError (msg : str)
| BuiltinTypeError (msg : str)
| BuiltinUnicodeEncodeError.

Definition exn_of_builtin (b : builtin_error) : exn :=
  match b with
  | BuiltinValueError msg => ValueError msg
  | BuiltinTypeError msg => TypeError msg
  | BuiltinUnicodeEncodeError => UnicodeEncodeError
  end.

(** What [session.post] ends in: a [requests.exceptions.RequestException]
    (connection refused, timeout, TLS failure, retries exhausted) whose text
    is [str(e)], a completed exchange with the response received, or an
    exception that is no [RequestException]. *)
Inductive exchange : Type :=
| Failed (e_str : str)
| Completed (status_code : Z) (reason : str) (url : str) (text : str)
| Refused (e : builtin_error).

(** The collaborators of the client. *)
Record world : Type := mkWorld {
  (** [int(time.time())] *)
  time_now : Z;
  (** [json.loads], which is also [response.json()]; [None] when the text is
      not JSON. *)
  json_loads : str -> option value;
  (** [session.post(url, data=..., headers=..., timeout=...)] of a session
      whose adapter was mounted with [max_retries]. *)
  session_post : Z -> str -> str -> headers_t -> Z -> exchange
}.

(* ================================================================== *)
(** ** http.py *)

Module HTTPClient.

Record t : Type := mk {
  timeout : Z;
  max_retries : Z
}.

(** [response.raise_for_status()]: the text of the [HTTPError] it raises for
    a status in 400..599, nothing for any other status. *)
Definition raise_for_status (status_code : Z) (reason url : str) : option str :=
  if ((400 <=? status_code) && (status_code <? 500))%Z then
    Some (str_of_int status_code ++ lit " Client Error: " ++ reason ++
          lit " for url: " ++ url)
  else if ((500 <=? status_code) && (status_code <? 600))%Z then
    Some (str_of_int status_code ++ lit " Server Error: " ++ reason ++
          lit " for url: " ++ url)
  else None.

(** [HTTPError] is a [RequestException]: raised inside the [try], it is
    caught by the [except] clause of [post] like a failure of the
    connection.  The [APIError] of the inner handler is not, and leaves; so
    does an exception of [session.post] that is no [RequestException], which
    no clause catches and nothing logs. *)
Definition post (w : world) (self : t) (url : str) (data : value)
                (headers : headers_t) : io value :=
  emit (EvLog DEBUG) ;;;
  let json_data := to_json data in
  emit (EvLog DEBUG) ;;;
  emit (EvPost url json_data headers) ;;;
  match session_post w (max_retries self) url json_data headers (timeout self) with
  | Failed e_str =>
      emit (EvLog ERROR) ;;;
      raise (ConnectionError (lit "Failed to connect to Corezoid API: " ++ e_str))
  | Completed status_code reason rurl text =>
      emit (EvLog DEBUG) ;;;
      match raise_for_status status_code reason rurl with
      | Some e_str =>
          emit (EvLog ERROR) ;;;
          raise (ConnectionError
                   (lit "Failed to connect to Corezoid API: " ++ e_str))
      | None =>
          match json_loads w text with
          | Some response_json =>
              emit (EvLog DEBUG) ;;;
              ret response_json
          | None =>
              emit (EvLog ERROR) ;;;
              raise (APIError (lit "Invalid JSON response from Corezoid API")
                              None (Some text))
          end
      end
  | Refused e => raise (exn_of_builtin e)
  end.

End HTTPClient.

(* ================================================================== *)
(** ** client.py *)

Module CorezoidResponse.

Record t : Type := mk {
  data : dict;
  request_proc : value;
  ops : value
}.

(** [CorezoidResponse(response_data)]: [.get] exists on a dict only. *)
Definition init (response_data : value) : result t :=
  match response_data with
  | VDict d =>
      Ok (mk d (dict_get (lit "request_proc") d)
               (dict_get_default (lit "ops") (VList []) d))
  | _ => Raise AttributeError
  end.

Definition is_success (self : t) : bool :=
  value_eq_str (request_proc self) (lit "ok").

Definition get_error (self : t) : value :=
  if is_success self then VNone
  else dict_get (lit "error_message") (data self).

Definition get_operation_results (self : t) : value := ops self.

(** The loop [for op in ...: if op.get('ref') == ref: return op] over the
    elements: an element that is not a dict has no [get]. *)
Fixpoint scan_ops (l : list value) (ref : str) : result value :=
  match l with
  | [] => Ok VNone
  | op :: rest =>
      match op with
      | VDict d =>
          if value_eq_str (dict_get (lit "ref") d) ref then Ok op
          else scan_ops rest ref
      | _ => Raise AttributeError
      end
  end.

(** Iterating a dict gives its keys and iterating a string its characters;
    [None], a boolean and an int cannot be iterated. *)
Definition get_operation_result (self : t) (ref : str) : result value :=
  match ops self with
  | VList l => scan_ops l ref
  | VDict d => scan_ops (map (fun kv => VStr (fst kv)) d) ref
  | VStr s => scan_ops (map (fun c => VStr [c]) s) ref
  | _ => Raise (TypeError (lit "object is not iterable"))
  end.

End CorezoidResponse.

Record Config : Type := mkConfig {
  api_login : str;
  api_secret : str;
  api_url : str;
  cfg_timeout : Z;
  cfg_max_retries : Z
}.

Module CorezoidClient.

Record t : Type := mk {
  config : Config;
  http_client : HTTPClient.t
}.

Definition _prepare_content (operations : list dict) : str :=
  let request := VDict [(lit "ops", VList (map VDict operations))] in
  to_json request.

(** [from_json(data)] *)
Definition from_json (w : world) (data : str) : result value :=
  match json_loads w data with
  | Some v => Ok v
  | None => Raise JSONDecodeError
  end.

Definition send (w : world) (self : t) (operations : list dict)
  : io CorezoidResponse.t :=
  match operations with
  | [] => raise (ValidationError (lit "No operations provided"))
  | _ :: _ =>
      emit (EvLog DEBUG) ;;;
      emit EvClock ;;;
      let timestamp := str_of_int (time_now w) in
      let content := _prepare_content operations in
      emit (EvSign timestamp content) ;;;
      signature <- lift (generate_signature (api_secret (config self))
                                            timestamp content) ;;
      let headers :=
        [ (lit "Content-Type", lit "application/json");
          (lit "X-API-Login", api_login (config self));
          (lit "X-API-Signature", signature);
          (lit "X-API-Timestamp", timestamp) ] in
      emit (EvLog DEBUG) ;;;
      try_except
        (body <- lift (from_json w content) ;;
         response_data <- HTTPClient.post w (http_client self)
                            (api_url (config self)) body headers ;;
         emit (EvLog DEBUG) ;;;
         response <- lift (CorezoidResponse.init response_data) ;;
         emit (EvLog (if CorezoidResponse.is_success response
                      then DEBUG else WARNING)) ;;;
         ret response)
        (fun e => emit (EvLog ERROR) ;;; raise e)
  end.

Definition create_batch (max_batch_size : Z) : OperationBatch.t :=
  OperationBatch.init max_batch_size.

Definition send_batch (w : world) (self : t) (batch : OperationBatch.t)
  : io CorezoidResponse.t :=
  if OperationBatch.is_empty batch
  then raise (ValidationError (lit "Batch is empty"))
  else send w self (OperationBatch.get_operations batch).

End CorezoidClient.

(* ================================================================== *)
(** ** Predicates of the statements *)

(** A string [.encode('utf-8')] accepts: every element is a code point and
    none is a surrogate. *)
Definition encodable (s : str) : bool :=
  forallb (fun c => match utf8_char c with Some _ => true | None => false end) s.





(** The operation result [r] has a [ref] field equal to [ref]. *)
Definition has_ref (r : dict) (ref : str) : Prop :=
  dict_find (lit "ref") r = Some (VStr ref).

(** The number a decimal writing denotes: [int(s)] on an optional minus sign
    followed by digits. *)
Fixpoint uint_of_codes (s : str) : Decimal.uint :=
  match s with
  | [] => Decimal.Nil
  | c :: s' =>
      let u := uint_of_codes s' in
      if c =? 48 then Decimal.D0 u else if c =? 49 then Decimal.D1 u
      else if c =? 50 then Decimal.D2 u else if c =? 51 then Decimal.D3 u
      else if c =? 52 then Decimal.D4 u else if c =? 53 then Decimal.D5 u
      else if c =? 54 then Decimal.D6 u else if c =? 55 then Decimal.D7 u
      else if c =? 56 then Decimal.D8 u else Decimal.D9 u
  end.

Definition int_of_str (s : str) : Z :=
  match s with
  | 45 :: s' => (- Z.of_N (N.of_uint (uint_of_codes s')))%Z
  | _ => Z.of_N (N.of_uint (uint_of_codes s))
  end.

(** The invariant of a batch: it holds no more operations than its
    capacity. *)
Definition within_capacity (b : OperationBatch.t) : Prop :=
  (Z.of_nat (length (OperationBatch.operations b))
   <= OperationBatch.max_batch_size b)%Z.

(* ================================================================== *)
(** ** JSON texts, read back

    A reader of the JSON grammar of RFC 8259, for the texts without white
    space between the tokens and the numbers without fraction or exponent:
    [null], [true], [false], integers, strings with their escapes, arrays
    and objects.  What [to_json] writes is compared with what it reads. *)

Definition hex_value (c : N) : option N :=
  if is_digit c then Some (c - 48)
  else if (97 <=? c) && (c <=? 102) then Some (c - 87)
  else if (65 <=? c) && (c <=? 70) then Some (c - 55)
  else None.

Definition hex4_value (h3 h2 h1 h0 : N) : option N :=
  match hex_value h3, hex_value h2, hex_value h1, hex_value h0 with
  | Some x3, Some x2, Some x1, Some x0 =>
      Some (((x3 * 16 + x2) * 16 + x1) * 16 + x0)
  | _, _, _, _ => None
  end.

Definition is_high_surrogate (u : N) : bool := (55296 <=? u) && (u <=? 56319).
Definition is_low_surrogate (u : N) : bool := (56320 <=? u) && (u <=? 57343).

(** The low surrogate that a [\uXXXX] escape at the head of [s] writes. *)
Definition low_surrogate_escape (s : str) : option N :=
  match s with
  | b :: s1 =>
      if b =? 92 then
        match s1 with
        | u :: s2 =>
            if u =? 117 then
              match s2 with
              | h3 :: h2 :: h1 :: h0 :: _ =>
                  match hex4_value h3 h2 h1 h0 with
                  | Some u2 => if is_low_surrogate u2 then Some u2 else None
                  | None => None
                  end
              | _ => None
              end
            else None
        | [] => None
        end
      else None
  | [] => None
  end.

(** The character of a two-character escape. *)
Definition short_escape (e : N) : option N :=
  if e =? 34 then Some 34 else if e =? 92 then Some 92
  else if e =? 47 then Some 47 else if e =? 98 then Some 8
  else if e =? 102 then Some 12 else if e =? 110 then Some 10
  else if e =? 114 then Some 13 else if e =? 116 then Some 9
  else None.

Definition push {A B} (a : A) (r : option (list A * B)) : option (list A * B) :=
  match r with
  | Some (l, b) => Some (a :: l, b)
  | None => None
  end.

(** The characters of a string after its opening quote, up to the closing
    quote, and what follows it.  A high surrogate escape followed by a low
    surrogate escape is the one character of the pair; a control character
    must be escaped. *)
Fixpoint read_string (s : str) : option (str * str) :=
  match s with
  | [] => None
  | c :: s1 =>
      if c =? 34 then Some ([], s1)
      else if c =? 92 then
        match s1 with
        | [] => None
        | e :: s2 =>
            if e =? 117 then
              match s2 with
              | h3 :: h2 :: h1 :: h0 :: s3 =>
                  match hex4_value h3 h2 h1 h0 with
                  | None => None
                  | Some u =>
                      match (if is_high_surrogate u
                             then low_surrogate_escape s3 else None), s3 with
                      | Some u2, _ :: _ :: _ :: _ :: _ :: _ :: s4 =>
                          push (65536 + (u - 55296) * 1024 + (u2 - 56320))
                               (read_string s4)
                      | _, _ => push u (read_string s3)
                      end
                  end
              | _ => None
              end
            else
              match short_escape e with
              | Some c' => push c' (read_string s2)
              | None => None
              end
        end
      else if c <? 32 then None
      else push c (read_string s1)
  end.

(** An integer: an optional minus sign and digits, without a leading zero
    before another digit. *)
Definition read_int (s : str) : option (Z * str) :=
  let (sign, body) :=
    match s with
    | c :: s' => if c =? 45 then ([45], s') else ([], s)
    | [] => ([], s)
    end in
  match take_while is_digit body with
  | [] => None
  | d :: ds =>
      if (d =? 48) && negb (length ds =? 0)%nat then None
      else Some (int_of_str (sign ++ d :: ds), drop_while is_digit body)
  end.

(** Items separated by commas, up to the closing character. *)
Fixpoint read_items {A} (item : str -> option (A * str)) (close : N)
    (fuel : nat) (s : str) : option (list A * str) :=
  match fuel with
  | O => None
  | S fuel' =>
      match item s with
      | Some (x, c :: rest) =>
          if c =? close then Some ([x], rest)
          else if c =? 44 then push x (read_items item close fuel' rest)
          else None
      | _ => None
      end
  end.

(** What follows an opening bracket or brace. *)
Definition read_sequence {A} (item : str -> option (A * str)) (close : N)
    (fuel : nat) (s : str) : option (list A * str) :=
  match s with
  | c :: s' =>
      if c =? close then Some ([], s') else read_items item close fuel s
  | [] => None
  end.

(** A member of an object: a string, a colon and a value. *)
Definition read_member (scan : str -> option (value * str)) (s : str)
  : option ((str * value) * str) :=
  match s with
  | q :: s1 =>
      if q =? 34 then
        match read_string s1 with
        | Some (k, c :: s2) =>
            if c =? 58 then
              match scan s2 with
              | Some (v, rest) => Some ((k, v), rest)
              | None => None
              end
            else None
        | _ => None
        end
      else None
  | [] => None
  end.

Definition tagged {A B C} (f : A -> B) (r : option (A * C)) : option (B * C) :=
  match r with
  | Some (a, c) => Some (f a, c)
  | None => None
  end.

(** A value at the head of [s], and what follows it. *)
Fixpoint read_value (fuel : nat) (s : str) : option (value * str) :=
  match fuel with
  | O => None
  | S fuel' =>
      match s with
      | [] => None
      | c :: s1 =>
          if c =? 110 then
            option_map (pair VNone) (strip_prefix (lit "ull") s1)
          else if c =? 116 then
            option_map (pair (VBool true)) (strip_prefix (lit "rue") s1)
          else if c =? 102 then
            option_map (pair (VBool false)) (strip_prefix (lit "alse") s1)
          else if c =? 34 then tagged VStr (read_string s1)
          else if c =? 91 then
            tagged VList (read_sequence (read_value fuel') 93 fuel' s1)
          else if c =? 123 then
            tagged VDict
              (read_sequence (read_member (read_value fuel')) 125 fuel' s1)
          else tagged VInt (read_int s)
      end
  end.

(** The value that a JSON text denotes, [None] for a text that is not one
    of the grammar. *)
Definition json_read (s : str) : option value :=
  match read_value (S (length s)) s with
  | Some (v, []) => Some v
  | _ => None
  end.





(* ================================================================== *)
(** ** utils.py: the remaining helpers *)

(** [current_timestamp()] *)
Definition current_timestamp (w : world) : str := str_of_int (time_now w).

(** [v is None] *)
Definition is_none (v : value) : bool :=
  match v with
  | VNone => true
  | _ => false
  end.

(** [{k: v for k, v in data.items() if v is not None}] *)
Definition clean_dict (data : dict) : dict :=
  filter (fun kv => negb (is_none (snd kv))) data.

(** [[param for param in required
       if param not in params or params[param] is None]] *)
Definition missing_params (params : dict) (required : list str) : list str :=
  filter (fun param =>
            negb (dict_mem param params) || is_none (dict_get param params))
         required.

Definition validate_required_params (params : dict) (required : list str)
  : result unit :=
  match missing_params params required with
  | [] => Ok tt
  | missing =>
      Raise (ValueError (lit "Missing required parameters: " ++
                         join (lit ", ") missing))
  end.

(* ================================================================== *)
(** ** client.py: the task helpers of [CorezoidClient] *)

Module TaskHelpers.

Definition upload_schema (w : world) (self : CorezoidClient.t)
    (folder_id : conv_id_t) (schema : str) (async_mode : bool)
  : io CorezoidResponse.t :=
  let operation :=
    [ (lit "type", VStr (lit "create"));
      (lit "obj", VStr (lit "obj_scheme"));
      (lit "folder_id", VStr (py_str folder_id));
      (lit "scheme", VStr schema);
      (lit "async", VStr (if async_mode then lit "true" else lit "false")) ] in
  CorezoidClient.send w self [operation].

(** [now] and [uuid] are what the clock and the generator give when [ref] is
    [None]; the clock is read again by [send]. *)
Definition create_task (w : world) (now : Z) (uuid : N)
    (self : CorezoidClient.t) (conv_id : conv_id_t) (data : dict)
    (ref : option str) : io CorezoidResponse.t :=
  ref <- match ref with
         | None => emit EvClock ;;; ret (OperationBatch.generated_ref now uuid)
         | Some r => ret r
         end ;;
  let operation := RequestOperation.create conv_id ref data in
  CorezoidClient.send w self [operation].

Definition modify_task (w : world) (self : CorezoidClient.t)
    (conv_id : conv_id_t) (ref : str) (data : dict) : io CorezoidResponse.t :=
  let operation := RequestOperation.modify_ref conv_id ref data in
  CorezoidClient.send w self [operation].

Definition get_task (w : world) (self : CorezoidClient.t)
    (conv_id : conv_id_t) (ref : str) : io CorezoidResponse.t :=
  let operation := RequestOperation.get conv_id ref in
  CorezoidClient.send w self [operation].

End TaskHelpers.

(** The requests of a trace: url, body and headers of each [session.post]. *)
Fixpoint posts_of (tr : list event) : list (str * str * headers_t) :=
  match tr with
  | [] => []
  | EvPost url body headers :: tr' => (url, body, headers) :: posts_of tr'
  | _ :: tr' => posts_of tr'
  end.

(** Number of readings of the clock in a trace. *)
Fixpoint clock_reads (tr : list event) : nat :=
  match tr with
  | [] => 0
  | EvClock :: tr' => S (clock_reads tr')
  | _ :: tr' => clock_reads tr'
  end.

(* ================================================================== *)
(** ** config.py

    The arguments of the constructor are Python objects, whatever their
    annotation: they are values, and [x or y] goes by their truth value. *)

(** [bool(v)] *)
Definition truthy (v : value) : bool :=
  match v with
  | VNone => false
  | VBool b => b
  | VInt z => negb (z =? 0)%Z
  | VStr [] => false
  | VStr (_ :: _) => true
  | VList [] => false
  | VList (_ :: _) => true
  | VDict [] => false
  | VDict (_ :: _) => true
  end.

(** [a or b] *)
Definition py_or (a b : value) : value := if truthy a then a else b.

(** The process around the library: [os.environ.get(name)], and [int(s)] on a
    string, [None] where it raises [ValueError]. *)
Record system : Type := mkSystem {
  environ_get : str -> option str;
  int_of_text : str -> option Z
}.

Definition getenv (sys : system) (name : string) : value :=
  value_of_opt_str (environ_get sys (lit name)).

(** [int(v)] *)
Definition py_int (sys : system) (v : value) : result Z :=
  match v with
  | VInt z => Ok z
  | VBool b => Ok (if b then 1 else 0)%Z
  | VStr s =>
      match int_of_text sys s with
      | Some z => Ok z
      | None => Raise (ValueError (lit "invalid literal for int() with base 10"))
      end
  | _ => Raise (TypeError (lit "int() argument must be a string or a number"))
  end.

Module ConfigClass.

Definition DEFAULT_API_URL : str := lit "https://api.corezoid.com/api/2/json".
Definition DEFAULT_TIMEOUT : Z := 30.
Definition DEFAULT_MAX_RETRIES : Z := 3.

Record t : Type := mk {
  api_login : value;
  api_secret : value;
  api_url : value;
  timeout : Z;
  max_retries : Z
}.

(** [Config(api_login, api_secret, api_url, timeout, max_retries)] *)
Definition init (sys : system)
    (api_login api_secret api_url timeout max_retries : value) : result t :=
  let login := py_or api_login (getenv sys "COREZOID_API_LOGIN") in
  let secret := py_or api_secret (getenv sys "COREZOID_API_SECRET") in
  let url := py_or (py_or api_url (getenv sys "COREZOID_API_URL"))
                   (VStr DEFAULT_API_URL) in
  rbind (py_int sys (py_or (py_or timeout (getenv sys "COREZOID_TIMEOUT"))
                           (VInt DEFAULT_TIMEOUT))) (fun timeout' =>
  rbind (py_int sys (py_or (py_or max_retries
                                  (getenv sys "COREZOID_MAX_RETRIES"))
                           (VInt DEFAULT_MAX_RETRIES))) (fun max_retries' =>
  Ok (mk login secret url timeout' max_retries'))).

Definition validate (self : t) : result unit :=
  if negb (truthy (api_login self))
  then Raise (ValueError (lit "API login is required"))
  else if negb (truthy (api_secret self))
  then Raise (ValueError (lit "API secret is required"))
  else Ok tt.

Definition to_dict (self : t) : dict :=
  [ (lit "api_login", api_login self);
    (lit "api_secret", api_secret self);
    (lit "api_url", api_url self);
    (lit "timeout", VInt (timeout self));
    (lit "max_retries", VInt (max_retries self)) ].

Definition from_dict (sys : system) (config_dict : dict) : result t :=
  init sys (dict_get (lit "api_login") config_dict)
           (dict_get (lit "api_secret") config_dict)
           (dict_get (lit "api_url") config_dict)
           (dict_get (lit "timeout") config_dict)
           (dict_get (lit "max_retries") config_dict).

Definition from_env (sys : system) : result t :=
  init sys VNone VNone VNone VNone VNone.

End ConfigClass.

(** [CorezoidClient(api_login, api_secret, api_url, config)]: the
    configuration it keeps and the HTTP client it builds from it. *)
Definition client_init (sys : system) (api_login api_secret api_url : value)
    (config : option ConfigClass.t)
  : result (ConfigClass.t * HTTPClient.t) :=
  rbind (match config with
         | Some c => Ok c
         | None => ConfigClass.init sys api_login api_secret api_url VNone VNone
         end) (fun cfg =>
  rbind (ConfigClass.validate cfg) (fun _ =>
  Ok (cfg, HTTPClient.mk (ConfigClass.timeout cfg)
                         (ConfigClass.max_retries cfg)))).

(** The client of [send], for a configuration whose credentials and URL are
    strings. *)
Definition client_of (cfg : ConfigClass.t) (http : HTTPClient.t)
  : option CorezoidClient.t :=
  match ConfigClass.api_login cfg, ConfigClass.api_secret cfg,
        ConfigClass.api_url cfg with
  | VStr login, VStr secret, VStr url =>
      Some (CorezoidClient.mk
              (mkConfig login secret url (ConfigClass.timeout cfg)
                        (ConfigClass.max_retries cfg)) http)
  | _, _, _ => None
  end.

(** The headers [send] builds for a request. *)
Definition auth_headers (login signature timestamp : str) : headers_t :=
  [ (lit "Content-Type", lit "application/json");
    (lit "X-API-Login", login);
    (lit "X-API-Signature", signature);
    (lit "X-API-Timestamp", timestamp) ].

(** Printable ASCII: from the space to the tilde. *)
Definition is_printable (c : N) : bool := (32 <=? c) && (c <=? 126).

(* ================================================================== *)
(** * Properties *)

(** ** Strings *)

Lemma str_eqb_eq (a b : str) : str_eqb a b = true <-> a = b.
Proof.
  revert b; induction a as [|x a IH]; intros [|y b]; simpl;
    try (split; [discriminate | discriminate]); try tauto.
  rewrite andb_true_iff, N.eqb_eq, IH.
  split; [intros [-> ->]; reflexivity | intros H; injection H; auto].
Qed.

Lemma str_eqb_refl (a : str) : str_eqb a a = true.
Proof. apply str_eqb_eq; reflexivity. Qed.

Lemma str_eqb_neq (a b : str) : str_eqb a b = false <-> a <> b.
Proof.
  rewrite <- str_eqb_eq. destruct (str_eqb a b); split; congruence.
Qed.

Lemma forallb_impl {A} (f g : A -> bool) (l : list A) :
  (forall x, f x = true -> g x = true) ->
  forallb f l = true -> forallb g l = true.
Proof.
  intros Hfg; induction l as [|x l IH]; simpl; auto.
  rewrite !andb_true_iff; intros [Hx Hl]; auto.
Qed.

Lemma forallb_flat_map {A B} (f : B -> bool) (g : A -> list B) (l : list A) :
  (forall x, forallb f (g x) = true) -> forallb f (flat_map g l) = true.
Proof.
  intros Hg; induction l as [|x l IH]; simpl; auto.
  rewrite forallb_app, Hg, IH; reflexivity.
Qed.

Lemma hex_digit_lower (n : N) : is_lower_hex (hex_digit n) = true.
Proof.
  unfold is_lower_hex, is_digit, hex_digit.
  assert (Hd : n mod 16 < 16) by (apply N.mod_lt; discriminate).
  generalize dependent (n mod 16); intros d Hd.
  destruct (N.ltb_spec d 10) as [Hlt | Hge].
  - apply orb_true_iff; left.
    apply andb_true_iff; split; apply N.leb_le; lia.
  - apply orb_true_iff; right.
    apply andb_true_iff; split; apply N.leb_le; lia.
Qed.

Lemma hex_fixed_length (k : nat) (n : N) : length (hex_fixed k n) = k.
Proof.
  revert n; induction k as [|k IH]; intros n; simpl; auto.
  rewrite length_app, IH; simpl; lia.
Qed.

Lemma hex_fixed_lower (k : nat) (n : N) :
  forallb is_lower_hex (hex_fixed k n) = true.
Proof.
  revert n; induction k as [|k IH]; intros n; simpl; auto.
  rewrite forallb_app, IH; simpl. rewrite hex_digit_lower; reflexivity.
Qed.

Lemma lower_hex_ascii (c : N) : is_lower_hex c = true -> is_ascii_char c = true.
Proof.
  unfold is_lower_hex, is_digit, is_ascii_char.
  rewrite orb_true_iff, !andb_true_iff, !N.leb_le, N.ltb_lt. lia.
Qed.

Lemma flat_map_length_const {A B} (g : A -> list B) (k : nat) (l : list A) :
  (forall x, length (g x) = k) -> length (flat_map g l) = (k * length l)%nat.
Proof.
  intros Hg; induction l as [|x l IH]; simpl; [lia|].
  rewrite length_app, Hg, IH; lia.
Qed.

(** ** SHA-256 and HMAC *)

Lemma sha256_digest_length (msg : bytes) : length (SHA256.digest msg) = 32%nat.
Proof. reflexivity. Qed.

Lemma hmac_digest_length (key msg : bytes) : length (HMAC.digest key msg) = 32%nat.
Proof. unfold HMAC.digest; apply sha256_digest_length. Qed.

Lemma hexdigest_length (key msg : bytes) :
  length (HMAC.hexdigest key msg) = 64%nat.
Proof.
  unfold HMAC.hexdigest.
  rewrite (flat_map_length_const _ 2) by (intros; apply hex_fixed_length).
  rewrite hmac_digest_length; reflexivity.
Qed.

Lemma hexdigest_lower (key msg : bytes) :
  forallb is_lower_hex (HMAC.hexdigest key msg) = true.
Proof. apply forallb_flat_map; intros; apply hex_fixed_lower. Qed.

(** The published digests of the empty message and of ["abc"] (FIPS 180-4),
    and the second case of RFC 4231. *)
Example sha256_empty :
  flat_map (hex_fixed 2) (SHA256.digest []) =
  lit "e3b0c44298fc1c149afbf4c8996fb92427ae41e4649b934ca495991b7852b855".
Proof. vm_compute; reflexivity. Qed.

Example sha256_abc :
  flat_map (hex_fixed 2) (SHA256.digest (lit "abc")) =
  lit "ba7816bf8f01cfea414140de5dae2223b00361a396177a9cb410ff61f20015ad".
Proof. vm_compute; reflexivity. Qed.

Example hmac_rfc4231_case2 :
  HMAC.hexdigest (lit "Jefe") (lit "what do ya want for nothing?") =
  lit "5bdcc146bf60754e6a042426089575c75a003f089d2739839dec58b964ec3843".
Proof. vm_compute; reflexivity. Qed.

(** ** utils.py: signatures *)

Lemma encode_utf8_encodable (s : str) :
  encodable s = true -> exists bs, encode_utf8 s = Ok bs.
Proof.
  induction s as [|c s IH]; simpl; [eexists; reflexivity|].
  destruct (utf8_char c) as [bs|]; [|discriminate].
  simpl; intros H; destruct (IH H) as [rest ->].
  eexists; reflexivity.
Qed.

Lemma encode_utf8_raises (s : str) :
  encodable s = false -> encode_utf8 s = Raise UnicodeEncodeError.
Proof.
  induction s as [|c s IH]; simpl; [discriminate|].
  destruct (utf8_char c) as [bs|]; [|reflexivity].
  simpl; intros H; rewrite (IH H); reflexivity.
Qed.

Lemma encodable_app (a b : str) :
  encodable (a ++ b) = encodable a && encodable b.
Proof. apply forallb_app. Qed.

Lemma generate_signature_ok (api_secret timestamp content : str) :
  encodable api_secret = true -> encodable timestamp = true ->
  encodable content = true ->
  exists key msg,
    encode_utf8 api_secret = Ok key /\
    encode_utf8 (timestamp ++ content) = Ok msg /\
    generate_signature api_secret timestamp content =
      Ok (HMAC.hexdigest key msg).
Proof.
  intros Hs Ht Hc.
  destruct (encode_utf8_encodable api_secret Hs) as [key Hkey].
  assert (Hm : encodable (timestamp ++ content) = true)
    by (rewrite encodable_app, Ht, Hc; reflexivity).
  destruct (encode_utf8_encodable _ Hm) as [msg Hmsg].
  exists key, msg; repeat split; auto.
  unfold generate_signature; rewrite Hkey, Hmsg; reflexivity.
Qed.

Lemma compare_digest_ascii (a b : str) :
  isascii a = true -> isascii b = true ->
  HMAC.compare_digest a b = Ok (str_eqb a b).
Proof. intros Ha Hb; unfold HMAC.compare_digest; rewrite Ha, Hb; reflexivity. Qed.

Lemma compare_digest_non_ascii (a b : str) :
  isascii a = false ->
  HMAC.compare_digest a b =
  Raise (TypeError
           (lit "comparing strings with non-ASCII characters is not supported")).
Proof. intros Ha; unfold HMAC.compare_digest; rewrite Ha; reflexivity. Qed.

(** C1, amended.  For every secret, timestamp and content that UTF-8 can
    encode, [generate_signature] returns a string [sig] fixed by its three
    arguments, of 64 lowercase hexadecimal characters; for an ASCII string
    [s], [verify_signature s] returns true exactly when [s = sig] and false
    for every other one. *)
Theorem C1_signature_hex_and_verify (api_secret timestamp content : str) :
  encodable api_secret = true ->
  encodable timestamp = true ->
  encodable content = true ->
  exists sig : str,
    generate_signature api_secret timestamp content = Ok sig /\
    (forall k t c, k = api_secret -> t = timestamp -> c = content ->
                   generate_signature k t c = Ok sig) /\
    length sig = 64%nat /\
    forallb is_lower_hex sig = true /\
    verify_signature sig api_secret timestamp content = Ok true /\
    (forall s, isascii s = true ->
       (s = sig -> verify_signature s api_secret timestamp content = Ok true) /\
       (s <> sig -> verify_signature s api_secret timestamp content = Ok false)).
Proof.
  intros Hs Ht Hc.
  destruct (generate_signature_ok _ _ _ Hs Ht Hc) as (key & msg & _ & _ & Hgen).
  set (sig := HMAC.hexdigest key msg) in *.
  assert (Hlow : forallb is_lower_hex sig = true) by apply hexdigest_lower.
  assert (Hascii : isascii sig = true)
    by (revert Hlow; apply forallb_impl, lower_hex_ascii).
  assert (Hver : forall s, isascii s = true ->
            verify_signature s api_secret timestamp content = Ok (str_eqb s sig)).
  { intros s Hsa. unfold verify_signature; rewrite Hgen; simpl.
    apply compare_digest_ascii; assumption. }
  exists sig.
  split; [exact Hgen|].
  split; [intros k t c -> -> ->; exact Hgen|].
  split; [apply hexdigest_length|].
  split; [exact Hlow|].
  split; [rewrite (Hver sig Hascii), str_eqb_refl; reflexivity|].
  intros s Hsa; split.
  - intros ->. rewrite (Hver sig Hascii), str_eqb_refl; reflexivity.
  - intros Hne. rewrite (Hver s Hsa).
    apply str_eqb_neq in Hne; rewrite Hne; reflexivity.
Qed.

(** On a candidate with a non-ASCII character [verify_signature] raises the
    [TypeError] of [hmac.compare_digest], whatever the signature is. *)
Lemma verify_signature_non_ascii (s api_secret timestamp content : str) :
  encodable api_secret = true ->
  encodable timestamp = true ->
  encodable content = true ->
  isascii s = false ->
  verify_signature s api_secret timestamp content =
  Raise (TypeError
           (lit "comparing strings with non-ASCII characters is not supported")).
Proof.
  intros Hs Ht Hc Hna.
  destruct (generate_signature_ok _ _ _ Hs Ht Hc) as (key & msg & _ & _ & Hgen).
  unfold verify_signature; rewrite Hgen; simpl.
  apply compare_digest_non_ascii; assumption.
Qed.

(** The theorem on the inputs of the test suite: the signature has 64
    characters and ["invalid-signature"] is refused. *)
Lemma C1_signature_witness :
  exists sig : str,
    generate_signature (lit "test-secret") (lit "1234567890")
                       (qlit "{'key':'value'}") = Ok sig /\
    length sig = 64%nat /\
    verify_signature (lit "invalid-signature") (lit "test-secret")
                     (lit "1234567890") (qlit "{'key':'value'}") = Ok false.
Proof.
  destruct (C1_signature_hex_and_verify
              (lit "test-secret") (lit "1234567890") (qlit "{'key':'value'}")
              eq_refl eq_refl eq_refl)
    as (sig & Hgen & _ & Hlen & _ & _ & Hver).
  exists sig.
  split; [exact Hgen|].
  split; [exact Hlen|].
  apply (Hver (lit "invalid-signature") eq_refl).
  intros <-; discriminate Hlen.
Defined.

(** C1 as stated fails: for the string ["é"], which is not the signature,
    [verify_signature] does not return false, it raises [TypeError]; and
    for a secret that is a lone surrogate, [generate_signature] returns no
    signature, it raises [UnicodeEncodeError]. *)
Lemma C1_non_ascii_signature_raises :
  generate_signature (lit "test-secret") (lit "1234567890")
                     (qlit "{'key':'value'}") <> Ok [233] /\
  verify_signature [233] (lit "test-secret") (lit "1234567890")
                   (qlit "{'key':'value'}") =
    Raise (TypeError
             (lit "comparing strings with non-ASCII characters is not supported")) /\
  generate_signature [55296] (lit "1234567890") (qlit "{'key':'value'}") =
    Raise UnicodeEncodeError.
Proof.
  split; [|split].
  - vm_compute; discriminate.
  - vm_compute; reflexivity.
  - vm_compute; reflexivity.
Qed.

(** ** batch.py *)

Lemma add_when_full (op : dict) (b : OperationBatch.t) :
  OperationBatch.is_full b = true ->
  OperationBatch.add op b =
    (Raise (ValueError (lit "Batch is full (max size: " ++
                        str_of_int (OperationBatch.max_batch_size b) ++ lit ")")),
     b).
Proof.
  unfold OperationBatch.is_full, OperationBatch.add; intros ->; reflexivity.
Qed.

Lemma add_when_open (op : dict) (b : OperationBatch.t) :
  OperationBatch.is_full b = false ->
  OperationBatch.add op b =
    (Ok tt, OperationBatch.mk (OperationBatch.operations b ++ [op])
                              (OperationBatch.max_batch_size b)).
Proof.
  unfold OperationBatch.is_full, OperationBatch.add; intros ->; reflexivity.
Qed.

Lemma is_full_iff (b : OperationBatch.t) :
  OperationBatch.is_full b = true <->
  (OperationBatch.max_batch_size b
   <= Z.of_nat (length (OperationBatch.operations b)))%Z.
Proof. unfold OperationBatch.is_full; rewrite Z.geb_le; tauto. Qed.

Lemma is_open_iff (b : OperationBatch.t) :
  OperationBatch.is_full b = false <->
  (Z.of_nat (length (OperationBatch.operations b))
   < OperationBatch.max_batch_size b)%Z.
Proof.
  destruct (OperationBatch.is_full b) eqn:E.
  - apply is_full_iff in E; split; [discriminate | lia].
  - split; [intros _ | reflexivity].
    destruct (Z.lt_ge_cases (Z.of_nat (length (OperationBatch.operations b)))
                            (OperationBatch.max_batch_size b)) as [H|H]; auto.
    apply is_full_iff in H; congruence.
Qed.

Lemma add_keeps_invariant (op : dict) (b : OperationBatch.t) :
  within_capacity b ->
  within_capacity (snd (OperationBatch.add op b)) /\
  OperationBatch.max_batch_size (snd (OperationBatch.add op b)) =
  OperationBatch.max_batch_size b.
Proof.
  intros Hb. destruct (OperationBatch.is_full b) eqn:E.
  - rewrite add_when_full by assumption; simpl; auto.
  - rewrite add_when_open by assumption; simpl; split; [|reflexivity].
    apply is_open_iff in E.
    unfold within_capacity; simpl. rewrite length_app; simpl. lia.
Qed.

Lemma add_create_state (now : Z) (uuid : N) (conv_id : conv_id_t) (data : dict)
    (ref : option str) (b : OperationBatch.t) :
  snd (OperationBatch.add_create now uuid conv_id data ref b) =
  snd (OperationBatch.add
         (RequestOperation.create conv_id
            (match ref with
             | None => OperationBatch.generated_ref now uuid
             | Some r => r
             end) data) b).
Proof.
  unfold OperationBatch.add_create.
  destruct (OperationBatch.add _ b) as [[u|e] b']; reflexivity.
Qed.

Lemma exec_keeps_invariant (c : OperationBatch.call) (b : OperationBatch.t) :
  (0 <= OperationBatch.max_batch_size b)%Z ->
  within_capacity b ->
  within_capacity (OperationBatch.exec c b) /\
  OperationBatch.max_batch_size (OperationBatch.exec c b) =
  OperationBatch.max_batch_size b.
Proof.
  intros Hn Hb; destruct c; simpl;
    try (apply add_keeps_invariant; assumption).
  - rewrite add_create_state; apply add_keeps_invariant; assumption.
  - unfold within_capacity; simpl; split; [lia | reflexivity].
Qed.

Lemma exec_all_keeps_invariant (cs : list OperationBatch.call)
    (b : OperationBatch.t) :
  (0 <= OperationBatch.max_batch_size b)%Z ->
  within_capacity b ->
  within_capacity (OperationBatch.exec_all cs b) /\
  OperationBatch.max_batch_size (OperationBatch.exec_all cs b) =
  OperationBatch.max_batch_size b.
Proof.
  revert b; induction cs as [|c cs IH]; intros b Hn Hb; simpl; auto.
  destruct (exec_keeps_invariant c b Hn Hb) as [Hb' Hn'].
  destruct (IH (OperationBatch.exec c b)) as [H1 H2];
    [rewrite Hn'; assumption | assumption |].
  unfold OperationBatch.exec_all in *; simpl.
  split; [exact H1 | rewrite H2; exact Hn'].
Qed.

Lemma add_all_fits (ops : list dict) (b : OperationBatch.t) :
  (Z.of_nat (length (OperationBatch.operations b) + length ops)
   <= OperationBatch.max_batch_size b)%Z ->
  OperationBatch.add_all ops b =
    (Ok tt, OperationBatch.mk (OperationBatch.operations b ++ ops)
                              (OperationBatch.max_batch_size b)).
Proof.
  revert b; induction ops as [|op ops IH]; intros [cur n] H; simpl in *.
  - rewrite app_nil_r; reflexivity.
  - rewrite add_when_open by (apply is_open_iff; simpl; lia).
    simpl. rewrite IH; simpl.
    + rewrite <- app_assoc; reflexivity.
    + rewrite length_app; simpl; lia.
Qed.

(** C2, amended.  For a capacity [N >= 0]: after every sequence of calls of
    the mutating methods, whether they return or raise, the batch holds at
    most [N] operations and its capacity is still [N]; from the empty batch
    the first [N] calls of [add] return and leave the operations in the
    order they were added, and one more call raises [ValueError] and leaves
    the batch as it was.  For [N >= 1], [clear] on a full batch keeps the
    capacity and the next [add] returns. *)
Theorem C2_batch_capacity (N : Z) :
  (0 <= N)%Z ->
  (forall cs : list OperationBatch.call,
     let b := OperationBatch.exec_all cs (OperationBatch.init N) in
     (Z.of_nat (length (OperationBatch.operations b)) <= N)%Z /\
     OperationBatch.max_batch_size b = N) /\
  (forall ops : list dict,
     (Z.of_nat (length ops) <= N)%Z ->
     OperationBatch.add_all ops (OperationBatch.init N) =
       (Ok tt, OperationBatch.mk ops N)) /\
  (forall (ops : list dict) (op : dict),
     Z.of_nat (length ops) = N ->
     exists msg,
       OperationBatch.add op (OperationBatch.mk ops N) =
         (Raise (ValueError msg), OperationBatch.mk ops N)) /\
  ((1 <= N)%Z ->
   forall (ops : list dict) (op : dict),
     Z.of_nat (length ops) = N ->
     OperationBatch.clear (OperationBatch.mk ops N) =
       (Ok tt, OperationBatch.mk [] N) /\
     OperationBatch.add op (OperationBatch.mk [] N) =
       (Ok tt, OperationBatch.mk [op] N)).
Proof.
  intros HN.
  split; [|split; [|split]].
  - intros cs b.
    destruct (exec_all_keeps_invariant cs (OperationBatch.init N)) as [H1 H2];
      [exact HN | unfold within_capacity; simpl; lia |].
    fold b in H1, H2. unfold within_capacity in H1.
    simpl in H2. rewrite H2 in H1. split; assumption.
  - intros ops Hlen.
    rewrite add_all_fits by (simpl; lia). reflexivity.
  - intros ops op Hlen. eexists.
    apply add_when_full. apply is_full_iff; simpl; lia.
  - intros H1 ops op Hlen. split; [reflexivity|].
    rewrite add_when_open by (apply is_open_iff; simpl; lia). reflexivity.
Qed.

(** The theorem at capacity 3, the capacity of the test suite. *)
Lemma C2_batch_capacity_witness :
  (0 <= 3)%Z /\
  (forall cs : list OperationBatch.call,
     (Z.of_nat (length (OperationBatch.operations
                          (OperationBatch.exec_all cs (OperationBatch.init 3))))
      <= 3)%Z) /\
  OperationBatch.add_all
    [RequestOperation.get (ConvInt 1) (lit "a");
     RequestOperation.get (ConvInt 1) (lit "b");
     RequestOperation.get (ConvInt 1) (lit "c")] (OperationBatch.init 3) =
  (Ok tt,
   OperationBatch.mk
     [RequestOperation.get (ConvInt 1) (lit "a");
      RequestOperation.get (ConvInt 1) (lit "b");
      RequestOperation.get (ConvInt 1) (lit "c")] 3).
Proof.
  destruct (C2_batch_capacity 3 ltac:(lia)) as (Hinv & Hadd & _ & _).
  split; [lia|]. split.
  - intros cs. apply (Hinv cs).
  - apply Hadd. simpl; lia.
Defined.

(** C2 as stated fails at two capacities the constructor accepts.  With
    capacity [-1] the new batch already holds more than its capacity; with
    capacity [0] the batch is full, and after [clear] the next [add] still
    raises. *)
Lemma C2_capacity_below_one :
  (-1 < Z.of_nat (length (OperationBatch.operations (OperationBatch.init (-1)))))%Z /\
  OperationBatch.is_full (OperationBatch.init 0) = true /\
  OperationBatch.add (RequestOperation.get (ConvInt 1) (lit "a"))
                     (snd (OperationBatch.clear (OperationBatch.init 0))) =
    (Raise (ValueError (lit "Batch is full (max size: 0)")),
     OperationBatch.init 0).
Proof.
  split; [simpl; lia|]. split; reflexivity.
Qed.

(** ** Generated references *)

Lemma uint_codes_digits (u : Decimal.uint) : forallb is_digit (uint_codes u) = true.
Proof. induction u; simpl; auto. Qed.

Lemma uint_codes_nonempty (u : Decimal.uint) : u <> Decimal.Nil -> uint_codes u <> [].
Proof. destruct u; simpl; congruence. Qed.

Lemma str_of_N_digits (n : N) : forallb is_digit (str_of_N n) = true.
Proof. apply uint_codes_digits. Qed.

Lemma str_of_N_nonempty (n : N) : str_of_N n <> [].
Proof.
  apply uint_codes_nonempty. destruct n as [|p]; simpl.
  - discriminate.
  - apply Unsigned.to_uint_nonnil.
Qed.

Lemma str_of_int_nonneg (z : Z) :
  (0 <= z)%Z ->
  forallb is_digit (str_of_int z) = true /\ str_of_int z <> [].
Proof.
  destruct z as [|p|p]; unfold str_of_int; intros H.
  - split; [apply str_of_N_digits | apply str_of_N_nonempty].
  - split; [apply str_of_N_digits | apply str_of_N_nonempty].
  - lia.
Qed.

Lemma take_while_digits (ds tail : str) :
  forallb is_digit ds = true ->
  take_while is_digit (ds ++ 45 :: tail) = ds /\
  drop_while is_digit (ds ++ 45 :: tail) = 45 :: tail.
Proof.
  induction ds as [|d ds IH]; simpl.
  - intros _; split; reflexivity.
  - rewrite andb_true_iff; intros [Hd Hds]. rewrite Hd.
    destruct (IH Hds) as [-> ->]; split; reflexivity.
Qed.

Lemma forallb_firstn {A} (f : A -> bool) (n : nat) (l : list A) :
  forallb f l = true -> forallb f (firstn n l) = true.
Proof.
  revert l; induction n as [|n IH]; intros [|x l]; simpl; auto.
  rewrite !andb_true_iff; intros [Hx Hl]; auto.
Qed.

Lemma generated_ref_matches (now : Z) (uuid : N) :
  (0 <= now)%Z ->
  matches_task_ref (OperationBatch.generated_ref now uuid) = true.
Proof.
  intros Hnow. destruct (str_of_int_nonneg now Hnow) as [Hdig Hne].
  unfold matches_task_ref, OperationBatch.generated_ref.
  change (strip_prefix (lit "task-")
            (lit "task-" ++ str_of_int now ++ lit "-" ++
             firstn 8 (hex_fixed 32 uuid)))
    with (Some (str_of_int now ++ 45 :: firstn 8 (hex_fixed 32 uuid))).
  destruct (take_while_digits (str_of_int now)
              (firstn 8 (hex_fixed 32 uuid)) Hdig) as [-> ->].
  destruct (str_of_int now) as [|d ds]; [congruence|].
  rewrite length_firstn, hex_fixed_length.
  rewrite forallb_firstn by apply hex_fixed_lower.
  reflexivity.
Qed.

(** C9.  On a batch that is not full and with a clock that is not before the
    epoch, [add_create] without a reference returns a reference of the form
    [task-<digits>-<8 lowercase hex chars>], and the operation it appends
    is the create operation whose [ref] field is that reference; with a
    reference given, it returns it and the appended operation carries it. *)
Theorem C9_add_create_reference (now : Z) (uuid : N) (conv_id : conv_id_t)
    (data : dict) (b : OperationBatch.t) :
  (0 <= now)%Z ->
  OperationBatch.is_full b = false ->
  (exists ref : str,
     matches_task_ref ref = true /\
     OperationBatch.add_create now uuid conv_id data None b =
       (Ok ref,
        OperationBatch.mk
          (OperationBatch.operations b ++
           [RequestOperation.create conv_id ref data])
          (OperationBatch.max_batch_size b)) /\
     dict_find (lit "ref") (RequestOperation.create conv_id ref data) =
       Some (VStr ref)) /\
  (forall ref : str,
     OperationBatch.add_create now uuid conv_id data (Some ref) b =
       (Ok ref,
        OperationBatch.mk
          (OperationBatch.operations b ++
           [RequestOperation.create conv_id ref data])
          (OperationBatch.max_batch_size b)) /\
     dict_find (lit "ref") (RequestOperation.create conv_id ref data) =
       Some (VStr ref)).
Proof.
  intros Hnow Hopen. split.
  - exists (OperationBatch.generated_ref now uuid).
    split; [apply generated_ref_matches; assumption|].
    split; [|reflexivity].
    unfold OperationBatch.add_create.
    rewrite add_when_open by assumption. reflexivity.
  - intros ref. split; [|reflexivity].
    unfold OperationBatch.add_create.
    rewrite add_when_open by assumption. reflexivity.
Qed.

(** The theorem on an empty batch of capacity 3. *)
Lemma C9_add_create_reference_witness :
  exists ref : str,
    matches_task_ref ref = true /\
    OperationBatch.add_create 1700000000 0xabcdef0123456789abcdef0123456789
        (ConvInt 1234) [(lit "key", VStr (lit "value"))] None
        (OperationBatch.init 3) =
      (Ok ref,
       OperationBatch.mk
         [RequestOperation.create (ConvInt 1234) ref
            [(lit "key", VStr (lit "value"))]] 3).
Proof.
  destruct (C9_add_create_reference 1700000000
              0xabcdef0123456789abcdef0123456789 (ConvInt 1234)
              [(lit "key", VStr (lit "value"))] (OperationBatch.init 3)
              ltac:(lia) eq_refl)
    as [(ref & Hm & Hadd & _) _].
  exists ref. split; [exact Hm | exact Hadd].
Defined.

Example generated_ref_example :
  OperationBatch.generated_ref 1700000000 0xabcdef0123456789abcdef0123456789 =
  lit "task-1700000000-abcdef01".
Proof. vm_compute; reflexivity. Qed.

(** ** operations.py *)

Lemma uint_of_codes_inv (u : Decimal.uint) : uint_of_codes (uint_codes u) = u.
Proof. induction u; simpl; congruence. Qed.

Lemma int_of_str_of_N (n : N) : int_of_str (str_of_N n) = Z.of_N n.
Proof.
  unfold int_of_str.
  assert (Hd := str_of_N_digits n).
  assert (Hv : N.of_uint (uint_of_codes (str_of_N n)) = n)
    by (unfold str_of_N; rewrite uint_of_codes_inv; apply DecimalN.Unsigned.of_to).
  destruct (str_of_N n) as [|c s] eqn:E; [rewrite Hv; reflexivity|].
  simpl in Hd. apply andb_true_iff in Hd. destruct Hd as [Hc _].
  destruct (N.eqb_spec c 45) as [->|Hne]; [discriminate Hc|].
  rewrite <- Hv.
  destruct c as [|p]; [reflexivity|].
  do 6 (destruct p as [p|p|]; try reflexivity).
  exfalso; apply Hne; reflexivity.
Qed.

(** [str] of an int is a writing of that int. *)
Lemma int_of_str_of_int (z : Z) : int_of_str (str_of_int z) = z.
Proof.
  destruct z as [|p|p]; unfold str_of_int.
  - apply (int_of_str_of_N 0).
  - apply (int_of_str_of_N (N.pos p)).
  - unfold int_of_str.
    unfold str_of_N; rewrite uint_of_codes_inv, DecimalN.Unsigned.of_to.
    reflexivity.
Qed.

(** C7.  [RequestOperation.create] returns the dict of exactly the five
    fields [type], [conv_id], [obj], [ref], [data], in this order, with
    [type = "create"], [obj = "task"], [conv_id] the string form of the
    argument (itself for a string, its decimal writing for an int), [ref]
    and [data] as given; no field holds [None]. *)
Theorem C7_create_shape (conv_id : conv_id_t) (ref : str) (data : dict) :
  let op := RequestOperation.create conv_id ref data in
  dict_keys op =
    [lit "type"; lit "conv_id"; lit "obj"; lit "ref"; lit "data"] /\
  dict_find (lit "type") op = Some (VStr (lit "create")) /\
  dict_find (lit "obj") op = Some (VStr (lit "task")) /\
  dict_find (lit "conv_id") op = Some (VStr (py_str conv_id)) /\
  dict_find (lit "ref") op = Some (VStr ref) /\
  dict_find (lit "data") op = Some (VDict data) /\
  (forall s, conv_id = ConvStr s -> py_str conv_id = s) /\
  (forall z, conv_id = ConvInt z ->
     py_str conv_id = str_of_int z /\ int_of_str (py_str conv_id) = z) /\
  (forall k v, In (k, v) op -> v <> VNone).
Proof.
  cbv zeta.
  split; [reflexivity|]. split; [reflexivity|]. split; [reflexivity|].
  split; [reflexivity|]. split; [reflexivity|]. split; [reflexivity|].
  split; [intros s ->; reflexivity|].
  split; [intros z ->; split; [reflexivity | apply int_of_str_of_int]|].
  intros k v Hin. unfold RequestOperation.create in Hin. simpl in Hin.
  repeat (destruct Hin as [Hin | Hin]; [injection Hin; intros <- _; discriminate|]).
  destruct Hin.
Qed.

Example create_int_conv_id :
  to_json (VDict (RequestOperation.create (ConvInt 1234) (lit "r1")
                    [(lit "k", VStr (lit "v"))])) =
  qlit "{'type':'create','conv_id':'1234','obj':'task','ref':'r1','data':{'k':'v'}}".
Proof. vm_compute; reflexivity. Qed.

Lemma dict_mem_set_new (key k : str) (v : value) (d : dict) :
  dict_mem k (dict_set key v d) = str_eqb key k || dict_mem k d.
Proof.
  unfold dict_mem. induction d as [|[k0 v0] d IH]; simpl.
  - destruct (str_eqb key k); reflexivity.
  - destruct (str_eqb k0 key) eqn:E0; simpl.
    + apply str_eqb_eq in E0; subst k0.
      destruct (str_eqb key k); reflexivity.
    + destruct (str_eqb k0 k) eqn:E1; simpl.
      * destruct (str_eqb key k); reflexivity.
      * exact IH.
Qed.

(** C10.  [ResponseOperation.ok] has a [data] key exactly when its [data]
    argument is truthy: [None] and the empty dict both give the same dict,
    without the key.  [ResponseOperation.error] has an [error_code] key
    exactly when [error_code] is truthy: the empty string gives the same
    dict as [None], without the key. *)
Theorem C10_optional_fields_by_truthiness (conv_id : conv_id_t) (ref : str) :
  (forall data : option dict,
     dict_mem (lit "data") (ResponseOperation.ok conv_id ref data) =
     truthy_dict data) /\
  (forall d : dict, d <> [] ->
     dict_find (lit "data") (ResponseOperation.ok conv_id ref (Some d)) =
     Some (VDict d)) /\
  ResponseOperation.ok conv_id ref (Some []) =
    ResponseOperation.ok conv_id ref None /\
  dict_mem (lit "data") (ResponseOperation.ok conv_id ref None) = false /\
  (forall (error_message : str) (error_code : option str),
     dict_mem (lit "error_code")
       (ResponseOperation.error conv_id ref error_message error_code) =
     truthy_str error_code) /\
  (forall (error_message c : str), c <> [] ->
     dict_find (lit "error_code")
       (ResponseOperation.error conv_id ref error_message (Some c)) =
     Some (VStr c)) /\
  (forall error_message : str,
     ResponseOperation.error conv_id ref error_message (Some []) =
     ResponseOperation.error conv_id ref error_message None /\
     dict_mem (lit "error_code")
       (ResponseOperation.error conv_id ref error_message None) = false).
Proof.
  split; [|split; [|split; [|split; [|split; [|split]]]]].
  - intros [[|kv d]|]; reflexivity.
  - intros [|kv d] Hd; [congruence | reflexivity].
  - reflexivity.
  - reflexivity.
  - intros msg [[|c s]|]; reflexivity.
  - intros msg [|c s] Hc; [congruence | reflexivity].
  - intros msg; split; reflexivity.
Qed.

(** ** utils.py: [to_json] *)

(** Induction on values, with the hypothesis on every element of a list and
    on every entry of a dict. *)
Lemma value_induction (P : value -> Prop)
    (Hnone : P VNone)
    (Hbool : forall b, P (VBool b))
    (Hint : forall z, P (VInt z))
    (Hstr : forall s, P (VStr s))
    (Hlist : forall l, Forall P l -> P (VList l))
    (Hdict : forall d, Forall (fun kv => P (snd kv)) d -> P (VDict d)) :
  forall v, P v.
Proof.
  fix IH 1. intros [ | b | z | s | l | d].
  - exact Hnone.
  - apply Hbool.
  - apply Hint.
  - apply Hstr.
  - apply Hlist. induction l as [|x l IHl]; constructor; [apply IH | exact IHl].
  - apply Hdict. induction d as [|[k x] d IHd]; constructor;
      [apply IH | exact IHd].
Qed.











Lemma json_dumps_list (isep ksep : str) (l : list value) :
  json_dumps isep ksep (VList l) =
  [91] ++ join isep (map (json_dumps isep ksep) l) ++ [93].
Proof. reflexivity. Qed.

Lemma json_dumps_dict (isep ksep : str) (d : dict) :
  json_dumps isep ksep (VDict d) =
  [123] ++ join isep
             (map (fun kv => encode_basestring_ascii (fst kv) ++ ksep ++
                             json_dumps isep ksep (snd kv)) d) ++ [125].
Proof. reflexivity. Qed.



(** ** Reading back what [to_json] writes *)
































(** The reader on other texts: white space between the tokens, a leading
    zero, a fraction, a comma before the closing bracket and a control
    character in a string are outside the texts it reads; [-0] is 0, and an
    escaped solidus or an escape in upper case is read. *)
Example json_read_other_texts :
  json_read (lit "[1, 2]") = None /\
  json_read (lit "01") = None /\
  json_read (lit "1.5") = None /\
  json_read (lit "[1,]") = None /\
  json_read (qlit "'a" ++ [10] ++ qlit "b'") = None /\
  json_read (lit "-0") = Some (VInt 0) /\
  json_read (qlit "'\/\u00E9'") = Some (VStr [47; 233]) /\
  json_read (qlit "{'a':[null,true,-12,{}]}") =
    Some (VDict [(lit "a", VList [VNone; VBool true; VInt (-12); VDict []])]).
Proof. vm_compute. repeat split. Qed.

(** A high surrogate followed by a low surrogate is written like the
    character of the pair, and is read back as that character; a surrogate
    alone is read back as it is. *)
Example surrogate_pair_written_as_character :
  to_json (VStr [55357; 56832]) = to_json (VStr [128512]) /\
  to_json (VStr [128512]) = qlit "'\ud83d\ude00'" /\
  json_read (to_json (VStr [55357; 56832])) = Some (VStr [128512]) /\
  json_read (to_json (VStr [56832; 55357])) = Some (VStr [56832; 55357]).
Proof. vm_compute. repeat split. Qed.

(** The default separators of [json.dumps] would insert spaces. *)
Example default_separators_insert_spaces :
  json_dumps_default
    (VDict [(lit "ops", VList [VDict [(lit "type", VStr (lit "create"));
                                      (lit "ref", VStr (lit "r1"))]])]) =
  qlit "{'ops': [{'type': 'create', 'ref': 'r1'}]}".
Proof. vm_compute; reflexivity. Qed.

(** ** client.py: [CorezoidResponse] *)

Lemma ref_field_eq (r : dict) (ref : str) :
  value_eq_str (dict_get (lit "ref") r) ref = true <-> has_ref r ref.
Proof.
  unfold has_ref, dict_get.
  destruct (dict_find (lit "ref") r) as [[ | b | z | s | l | d]|]; simpl;
    try (split; [discriminate | intros H; discriminate H]).
  rewrite str_eqb_eq. split; [intros ->; reflexivity | intros H; injection H; auto].
Qed.

Lemma scan_ops_first (pre post : list dict) (r : dict) (ref : str) :
  (forall x, In x pre -> ~ has_ref x ref) ->
  has_ref r ref ->
  CorezoidResponse.scan_ops (map VDict (pre ++ r :: post)) ref = Ok (VDict r).
Proof.
  intros Hpre Hr. induction pre as [|x pre IH]; simpl.
  - apply ref_field_eq in Hr. rewrite Hr. reflexivity.
  - destruct (value_eq_str (dict_get (lit "ref") x) ref) eqn:E.
    + apply ref_field_eq in E. exfalso. apply (Hpre x); [left; reflexivity | exact E].
    + apply IH. intros y Hy. apply Hpre. right; exact Hy.
Qed.

Lemma scan_ops_none (rs : list dict) (ref : str) :
  (forall x, In x rs -> ~ has_ref x ref) ->
  CorezoidResponse.scan_ops (map VDict rs) ref = Ok VNone.
Proof.
  intros Hrs. induction rs as [|x rs IH]; simpl; [reflexivity|].
  destruct (value_eq_str (dict_get (lit "ref") x) ref) eqn:E.
  - apply ref_field_eq in E. exfalso. apply (Hrs x); [left; reflexivity | exact E].
  - apply IH. intros y Hy. apply Hrs. right; exact Hy.
Qed.

(** C6.  On a response whose [ops] is the list of records [rs],
    [get_operation_result ref] returns the first record whose [ref] field
    equals [ref], whatever follows it, and [None] when no record has that
    [ref] field. *)
Theorem C6_first_match_wins (d : dict) (rs : list dict) (ref : str) :
  dict_find (lit "ops") d = Some (VList (map VDict rs)) ->
  exists resp : CorezoidResponse.t,
    CorezoidResponse.init (VDict d) = Ok resp /\
    CorezoidResponse.get_operation_results resp = VList (map VDict rs) /\
    (forall (pre post : list dict) (r : dict),
       rs = pre ++ r :: post ->
       (forall x, In x pre -> ~ has_ref x ref) ->
       has_ref r ref ->
       CorezoidResponse.get_operation_result resp ref = Ok (VDict r)) /\
    ((forall x, In x rs -> ~ has_ref x ref) ->
     CorezoidResponse.get_operation_result resp ref = Ok VNone).
Proof.
  intros Hops. eexists. split; [reflexivity|].
  unfold CorezoidResponse.get_operation_results,
         CorezoidResponse.get_operation_result, dict_get_default.
  simpl. rewrite Hops.
  split; [reflexivity|]. split.
  - intros pre post r -> Hpre Hr. apply scan_ops_first; assumption.
  - apply scan_ops_none.
Qed.

(** The theorem on the response of the specification: the record of ["a"]
    for ["a"], [None] for ["z"]. *)
Lemma C6_first_match_wins_witness :
  let ra := [(lit "ref", VStr (lit "a")); (lit "proc", VStr (lit "ok"))] in
  let rb := [(lit "ref", VStr (lit "b")); (lit "proc", VStr (lit "error"))] in
  let d := [(lit "request_proc", VStr (lit "ok"));
            (lit "ops", VList [VDict ra; VDict rb])] in
  exists resp : CorezoidResponse.t,
    CorezoidResponse.init (VDict d) = Ok resp /\
    CorezoidResponse.get_operation_result resp (lit "a") = Ok (VDict ra) /\
    CorezoidResponse.get_operation_result resp (lit "z") = Ok VNone.
Proof.
  intros ra rb d.
  destruct (C6_first_match_wins d [ra; rb] (lit "a") eq_refl)
    as (resp & Hinit & _ & Hfirst & _).
  destruct (C6_first_match_wins d [ra; rb] (lit "z") eq_refl)
    as (resp' & Hinit' & _ & _ & Hnone).
  assert (resp' = resp) by congruence; subst resp'.
  exists resp. split; [exact Hinit|]. split.
  - apply (Hfirst [] [rb] ra eq_refl); [intros x [] | reflexivity].
  - apply Hnone. intros x [<- | [<- | []]]; unfold has_ref; discriminate.
Defined.

(** With the same [ref] twice, the first record is the one returned. *)
Example duplicate_ref_first_wins :
  CorezoidResponse.scan_ops
    [VDict [(lit "ref", VStr (lit "a")); (lit "proc", VStr (lit "ok"))];
     VDict [(lit "ref", VStr (lit "a")); (lit "proc", VStr (lit "error"))]]
    (lit "a") =
  Ok (VDict [(lit "ref", VStr (lit "a")); (lit "proc", VStr (lit "ok"))]).
Proof. reflexivity. Qed.

Lemma request_proc_ok_iff (d : dict) :
  value_eq_str (dict_get (lit "request_proc") d) (lit "ok") = true <->
  dict_find (lit "request_proc") d = Some (VStr (lit "ok")).
Proof.
  unfold dict_get.
  destruct (dict_find (lit "request_proc") d) as [[ | b | z | s | l | d']|];
    cbn [value_eq_str];
    try (split; [discriminate | intros H; discriminate H]).
  rewrite str_eqb_eq. split; [intros ->; reflexivity | intros H; injection H; auto].
Qed.

(** C8, amended.  For every response dict, [is_success] is true exactly when
    the [request_proc] field is the string ["ok"]; [get_error] returns
    [None] when [is_success] is true, and otherwise what the dict holds
    under [error_message]: the message when there is one, [None] when the
    field is missing. *)
Theorem C8_success_and_error (d : dict) :
  exists resp : CorezoidResponse.t,
    CorezoidResponse.init (VDict d) = Ok resp /\
    (CorezoidResponse.is_success resp = true <->
     dict_find (lit "request_proc") d = Some (VStr (lit "ok"))) /\
    (CorezoidResponse.is_success resp = true ->
     CorezoidResponse.get_error resp = VNone) /\
    (CorezoidResponse.is_success resp = false ->
     (forall m : value,
        dict_find (lit "error_message") d = Some m ->
        CorezoidResponse.get_error resp = m) /\
     (dict_find (lit "error_message") d = None ->
      CorezoidResponse.get_error resp = VNone)).
Proof.
  eexists. split; [reflexivity|].
  unfold CorezoidResponse.is_success, CorezoidResponse.get_error,
         CorezoidResponse.is_success.
  cbn [CorezoidResponse.request_proc CorezoidResponse.data].
  split; [apply request_proc_ok_iff|].
  split.
  - intros ->; reflexivity.
  - intros ->. unfold dict_get. split.
    + intros m ->; reflexivity.
    + intros ->; reflexivity.
Qed.

(** C8 as stated fails: on the response [{"request_proc": "error"}] the
    request did not succeed and [get_error] returns [None], not a
    message. *)
Lemma C8_failure_without_message :
  let d := [(lit "request_proc", VStr (lit "error"))] in
  let resp := CorezoidResponse.mk d (VStr (lit "error")) (VList []) in
  CorezoidResponse.init (VDict d) = Ok resp /\
  CorezoidResponse.is_success resp = false /\
  CorezoidResponse.get_error resp = VNone.
Proof. repeat split. Qed.

(** ** client.py: [send] and [send_batch] *)

Lemma is_empty_iff (b : OperationBatch.t) :
  OperationBatch.is_empty b = true <-> OperationBatch.operations b = [].
Proof.
  unfold OperationBatch.is_empty.
  destruct (OperationBatch.operations b); simpl; split; congruence.
Qed.

Lemma trace_emit_bind {A} (ev : event) (k : unit -> io A) :
  fst (bind (emit ev) k) = ev :: fst (k tt).
Proof. unfold bind, emit. destruct (k tt); reflexivity. Qed.

(** C5.  [send] on the empty list raises [ValidationError] with no event
    performed: no reading of the clock, no signature, no request; so does
    [send_batch] on every empty batch, whatever its capacity.  On a list
    that is not empty, [send] starts by reading the clock and signing. *)
Theorem C5_empty_rejected_before_effects (w : world) (self : CorezoidClient.t) :
  CorezoidClient.send w self [] =
    ([], Raise (ValidationError (lit "No operations provided"))) /\
  (forall max_batch_size : Z,
     OperationBatch.is_empty (OperationBatch.mk [] max_batch_size) = true /\
     CorezoidClient.send_batch w self (OperationBatch.mk [] max_batch_size) =
       ([], Raise (ValidationError (lit "Batch is empty")))) /\
  (forall (op : dict) (rest : list dict),
     exists tr : list event,
       fst (CorezoidClient.send w self (op :: rest)) =
       EvLog DEBUG :: EvClock ::
       EvSign (str_of_int (time_now w))
              (CorezoidClient._prepare_content (op :: rest)) :: tr).
Proof.
  split; [reflexivity|]. split.
  - intros n; split; reflexivity.
  - intros op rest. unfold CorezoidClient.send.
    rewrite !trace_emit_bind. eexists; reflexivity.
Qed.

(** ** http.py *)

Lemma post_outcome (w : world) (self : HTTPClient.t) (url : str)
    (data : value) (headers : headers_t) :
  snd (HTTPClient.post w self url data headers) =
  match session_post w (HTTPClient.max_retries self) url (to_json data)
                     headers (HTTPClient.timeout self) with
  | Failed e_str =>
      Raise (ConnectionError (lit "Failed to connect to Corezoid API: " ++ e_str))
  | Completed status_code reason rurl text =>
      match HTTPClient.raise_for_status status_code reason rurl with
      | Some e_str =>
          Raise (ConnectionError
                   (lit "Failed to connect to Corezoid API: " ++ e_str))
      | None =>
          match json_loads w text with
          | Some response_json => Ok response_json
          | None =>
              Raise (APIError (lit "Invalid JSON response from Corezoid API")
                              None (Some text))
          end
      end
  | Refused e => Raise (exn_of_builtin e)
  end.
Proof.
  unfold HTTPClient.post.
  destruct (session_post w _ url _ headers _) as [e | st reason rurl text | b].
  - reflexivity.
  - destruct (HTTPClient.raise_for_status st reason rurl); [reflexivity|].
    destruct (json_loads w text); reflexivity.
  - reflexivity.
Qed.

(** C3: what [post] does on a completed exchange of status 500.  Whatever
    the body, it raises [ConnectionError], the class it raises when the
    exchange could not be completed, and not [APIError].  A body that is
    not JSON under status 200 does raise [APIError] with the raw body. *)
Theorem C3_status_error_raised_as_connection_error
    (now : Z) (loads : str -> option value) (self : HTTPClient.t)
    (url : str) (data : value) (headers : headers_t)
    (reason rurl text e_str : str) :
  snd (HTTPClient.post
         (mkWorld now loads (fun _ _ _ _ _ => Completed 500 reason rurl text))
         self url data headers) =
    Raise (ConnectionError
             (lit "Failed to connect to Corezoid API: " ++
              lit "500 Server Error: " ++ reason ++ lit " for url: " ++ rurl)) /\
  snd (HTTPClient.post
         (mkWorld now loads (fun _ _ _ _ _ => Failed e_str))
         self url data headers) =
    Raise (ConnectionError (lit "Failed to connect to Corezoid API: " ++ e_str)) /\
  snd (HTTPClient.post
         (mkWorld now (fun _ => None)
                  (fun _ _ _ _ _ => Completed 200 reason rurl text))
         self url data headers) =
    Raise (APIError (lit "Invalid JSON response from Corezoid API")
                    None (Some text)).
Proof.
  split; [|split]; rewrite post_outcome; reflexivity.
Qed.

(** Every status from 400 to 599 is raised as [ConnectionError]. *)
Lemma post_error_status (w : world) (self : HTTPClient.t) (url : str)
    (data : value) (headers : headers_t) (status_code : Z)
    (reason rurl text : str) :
  session_post w (HTTPClient.max_retries self) url (to_json data) headers
               (HTTPClient.timeout self) =
    Completed status_code reason rurl text ->
  (400 <= status_code < 600)%Z ->
  exists msg, snd (HTTPClient.post w self url data headers) =
              Raise (ConnectionError msg).
Proof.
  intros Hex Hst. rewrite post_outcome, Hex.
  unfold HTTPClient.raise_for_status.
  destruct ((400 <=? status_code) && (status_code <? 500))%Z eqn:E4.
  - eexists; reflexivity.
  - destruct ((500 <=? status_code) && (status_code <? 600))%Z eqn:E5.
    + eexists; reflexivity.
    + rewrite andb_false_iff, Z.leb_gt, Z.ltb_ge in E4, E5. lia.
Qed.

(* ================================================================== *)
(** * Further properties of the code *)

(** ** operations.py: the request builders *)

(** Every request built by [RequestOperation] has its [type], [conv_id] and
    [obj] and names its task by exactly one of [ref] and [obj_id]: [create],
    [modify_ref] and [get] by [ref], [modify_id] and [get_by_id] by
    [obj_id]; it has a [data] field unless it is a get; no key occurs
    twice. *)
Theorem request_builders_identity (conv_id : conv_id_t) (key : str) (data : dict) :
  let by_ref := [RequestOperation.create conv_id key data;
                 RequestOperation.modify_ref conv_id key data;
                 RequestOperation.get conv_id key] in
  let by_id := [RequestOperation.modify_id conv_id key data;
                RequestOperation.get_by_id conv_id key] in
  Forall (fun op => dict_find (lit "ref") op = Some (VStr key) /\
                    dict_find (lit "obj_id") op = None) by_ref /\
  Forall (fun op => dict_find (lit "obj_id") op = Some (VStr key) /\
                    dict_find (lit "ref") op = None) by_id /\
  Forall (fun op => dict_find (lit "conv_id") op = Some (VStr (py_str conv_id)) /\
                    dict_find (lit "obj") op = Some (VStr (lit "task")) /\
                    dict_mem (lit "type") op = true /\
                    NoDup (dict_keys op)) (by_ref ++ by_id) /\
  Forall (fun op => dict_find (lit "data") op = Some (VDict data))
         [RequestOperation.create conv_id key data;
          RequestOperation.modify_ref conv_id key data;
          RequestOperation.modify_id conv_id key data] /\
  Forall (fun op => dict_find (lit "data") op = None)
         [RequestOperation.get conv_id key;
          RequestOperation.get_by_id conv_id key].
Proof.
  cbv zeta.
  split; [repeat constructor|].
  split; [repeat constructor|].
  split.
  - repeat (apply Forall_cons || apply Forall_nil);
      (split; [reflexivity|]; split; [reflexivity|]; split; [reflexivity|]);
      repeat (apply NoDup_cons; [intros Hin; simpl in Hin;
                                 repeat (destruct Hin as [Hin|Hin];
                                         [discriminate Hin|]); exact Hin|]);
      apply NoDup_nil.
  - split; repeat constructor.
Qed.

(** ** Dicts: assignment and lookup *)

Lemma dict_find_set_same (key : str) (v : value) (d : dict) :
  dict_find key (dict_set key v d) = Some v.
Proof.
  induction d as [|[k0 v0] d IH]; simpl.
  - rewrite str_eqb_refl; reflexivity.
  - destruct (str_eqb k0 key) eqn:E; simpl; rewrite E; auto.
Qed.

Lemma dict_find_set_other (key k : str) (v : value) (d : dict) :
  k <> key -> dict_find k (dict_set key v d) = dict_find k d.
Proof.
  intros Hne. induction d as [|[k0 v0] d IH]; simpl.
  - assert (E : str_eqb key k = false) by (apply str_eqb_neq; congruence).
    rewrite E; reflexivity.
  - destruct (str_eqb k0 key) eqn:E; simpl.
    + apply str_eqb_eq in E; subst k0.
      assert (E : str_eqb key k = false) by (apply str_eqb_neq; congruence).
      rewrite E; reflexivity.
    + destruct (str_eqb k0 k); auto.
Qed.

(** ** operations.py and client.py: acknowledgements found by reference *)

Lemma response_ok_has_ref (conv_id : conv_id_t) (ref : str) (data : option dict) :
  has_ref (ResponseOperation.ok conv_id ref data) ref.
Proof.
  unfold has_ref, ResponseOperation.ok.
  destruct (truthy_dict data); [|reflexivity].
  rewrite dict_find_set_other by discriminate. reflexivity.
Qed.

Lemma response_error_has_ref (conv_id : conv_id_t) (ref msg : str)
    (code : option str) :
  has_ref (ResponseOperation.error conv_id ref msg code) ref.
Proof.
  unfold has_ref, ResponseOperation.error.
  destruct (truthy_str code); [|reflexivity].
  rewrite dict_find_set_other by discriminate. reflexivity.
Qed.

(** A result built by [ResponseOperation.ok] or [ResponseOperation.error],
    with or without its optional field, is what [get_operation_result]
    returns for its reference, when the results before it in the response
    are results for other references. *)
Theorem acknowledgement_found_by_ref (d : dict) (pre post : list dict)
    (conv_id : conv_id_t) (ref msg : str) (data : option dict)
    (code : option str) (r : dict) :
  r = ResponseOperation.ok conv_id ref data \/
  r = ResponseOperation.error conv_id ref msg code ->
  dict_find (lit "ops") d = Some (VList (map VDict (pre ++ r :: post))) ->
  (forall x, In x pre -> ~ has_ref x ref) ->
  exists resp : CorezoidResponse.t,
    CorezoidResponse.init (VDict d) = Ok resp /\
    CorezoidResponse.get_operation_result resp ref = Ok (VDict r).
Proof.
  intros Hr Hops Hpre. eexists. split; [reflexivity|].
  unfold CorezoidResponse.get_operation_result, dict_get_default.
  simpl. rewrite Hops.
  apply scan_ops_first; [exact Hpre|].
  destruct Hr as [-> | ->];
    [apply response_ok_has_ref | apply response_error_has_ref].
Qed.

(** An error for ["a"] followed by an acknowledgement for ["b"] with its
    data: the second is found under ["b"]. *)
Lemma acknowledgement_found_by_ref_witness :
  let ra := ResponseOperation.error (ConvInt 7) (lit "a") (lit "boom") None in
  let rb := ResponseOperation.ok (ConvInt 7) (lit "b")
              (Some [(lit "k", VInt 1)]) in
  exists resp : CorezoidResponse.t,
    CorezoidResponse.init
      (VDict [(lit "request_proc", VStr (lit "ok"));
              (lit "ops", VList [VDict ra; VDict rb])]) = Ok resp /\
    CorezoidResponse.get_operation_result resp (lit "b") = Ok (VDict rb).
Proof.
  intros ra rb.
  apply (acknowledgement_found_by_ref
           [(lit "request_proc", VStr (lit "ok"));
            (lit "ops", VList [VDict ra; VDict rb])]
           [ra] [] (ConvInt 7) (lit "b") (lit "") (Some [(lit "k", VInt 1)])
           None rb).
  - left; reflexivity.
  - reflexivity.
  - intros x [<- | []]. unfold has_ref. discriminate.
Defined.

(** ** batch.py: the queries *)

(** In every state of a batch: [is_empty] and [is_full] say what [size]
    says; [add] returns exactly when [is_full] is false, and then the size
    grows by one, the batch is not empty and [get_operations] ends with the
    operation added; when [is_full] is true [add] raises [ValueError] and
    the batch is as before.  After [clear] the batch is empty. *)
Theorem batch_queries_agree (b : OperationBatch.t) (op : dict) :
  (OperationBatch.is_empty b = true <-> OperationBatch.size b = 0%nat) /\
  (OperationBatch.is_full b = true <->
   (OperationBatch.max_batch_size b <= Z.of_nat (OperationBatch.size b))%Z) /\
  (OperationBatch.is_full b = false ->
   exists b',
     OperationBatch.add op b = (Ok tt, b') /\
     OperationBatch.size b' = S (OperationBatch.size b) /\
     OperationBatch.is_empty b' = false /\
     OperationBatch.get_operations b' = OperationBatch.get_operations b ++ [op] /\
     OperationBatch.max_batch_size b' = OperationBatch.max_batch_size b) /\
  (OperationBatch.is_full b = true ->
   exists msg, OperationBatch.add op b = (Raise (ValueError msg), b)) /\
  OperationBatch.is_empty (snd (OperationBatch.clear b)) = true /\
  OperationBatch.size (snd (OperationBatch.clear b)) = 0%nat.
Proof.
  split; [|split; [|split; [|split; [|split]]]].
  - unfold OperationBatch.is_empty, OperationBatch.size. apply Nat.eqb_eq.
  - apply is_full_iff.
  - intros Hopen. eexists. split; [apply add_when_open; exact Hopen|].
    unfold OperationBatch.size, OperationBatch.is_empty,
           OperationBatch.get_operations; simpl.
    rewrite length_app; simpl. rewrite Nat.add_1_r.
    repeat split; reflexivity.
  - intros Hfull. eexists. apply add_when_full; exact Hfull.
  - reflexivity.
  - reflexivity.
Qed.

(** ** client.py: what [get_operation_result] does on other responses *)

(** A response without [ops] has no result for any reference: [None].  A
    response whose [ops] is [null], a boolean or a number makes
    [get_operation_result] raise [TypeError], for any reference. *)
Theorem ops_missing_or_not_iterable (d : dict) (ref : str) :
  (dict_find (lit "ops") d = None ->
   exists resp, CorezoidResponse.init (VDict d) = Ok resp /\
                CorezoidResponse.get_operation_results resp = VList [] /\
                CorezoidResponse.get_operation_result resp ref = Ok VNone) /\
  (forall x, dict_find (lit "ops") d = Some x ->
             (x = VNone \/ (exists b, x = VBool b) \/ (exists z, x = VInt z)) ->
   exists resp msg,
     CorezoidResponse.init (VDict d) = Ok resp /\
     CorezoidResponse.get_operation_result resp ref = Raise (TypeError msg)).
Proof.
  split.
  - intros Hops. eexists. split; [reflexivity|].
    unfold CorezoidResponse.get_operation_results,
           CorezoidResponse.get_operation_result, dict_get_default; simpl.
    rewrite Hops. split; reflexivity.
  - intros x Hops Hx. eexists. eexists. split; [reflexivity|].
    unfold CorezoidResponse.get_operation_result, dict_get_default; simpl.
    rewrite Hops.
    destruct Hx as [-> | [[b ->] | [z ->]]]; reflexivity.
Qed.

(** The scan stops at the first match: what follows it in [ops] is not
    looked at, even an element that is not a record.  An element that is
    not a record and stands before any match makes the call raise
    [AttributeError]. *)
Theorem scan_stops_at_first_match (pre : list dict) (r : dict)
    (rest : list value) (junk : value) (ref : str) :
  (forall x, In x pre -> ~ has_ref x ref) ->
  (forall d, junk <> VDict d) ->
  (has_ref r ref ->
   CorezoidResponse.scan_ops (map VDict pre ++ VDict r :: rest) ref =
     Ok (VDict r)) /\
  CorezoidResponse.scan_ops (map VDict pre ++ junk :: rest) ref =
    Raise AttributeError.
Proof.
  intros Hpre Hjunk.
  assert (Hskip : forall tail,
            CorezoidResponse.scan_ops (map VDict pre ++ tail) ref =
            CorezoidResponse.scan_ops tail ref).
  { intros tail. induction pre as [|x pre IH]; [reflexivity|].
    simpl. destruct (value_eq_str (dict_get (lit "ref") x) ref) eqn:E.
    - apply ref_field_eq in E. exfalso.
      apply (Hpre x); [left; reflexivity | exact E].
    - apply IH. intros y Hy. apply Hpre. right; exact Hy. }
  split.
  - intros Hr. rewrite Hskip. simpl.
    apply ref_field_eq in Hr. rewrite Hr. reflexivity.
  - rewrite Hskip. destruct junk; try reflexivity.
    exfalso. apply (Hjunk d). reflexivity.
Qed.

(** A record for ["a"], then ["b"], then a stray string: ["b"] is found;
    with the stray string first, the call raises. *)
Lemma scan_stops_at_first_match_witness :
  let ra := [(lit "ref", VStr (lit "a"))] in
  let rb := [(lit "ref", VStr (lit "b"))] in
  CorezoidResponse.scan_ops [VDict ra; VDict rb; VStr (lit "stray")] (lit "b") =
    Ok (VDict rb) /\
  CorezoidResponse.scan_ops [VDict ra; VStr (lit "stray"); VDict rb] (lit "b") =
    Raise AttributeError.
Proof.
  intros ra rb.
  assert (Hpre : forall x, In x [ra] -> ~ has_ref x (lit "b"))
    by (intros x [<- | []]; unfold has_ref; discriminate).
  split.
  - apply (proj1 (scan_stops_at_first_match [ra] rb [VStr (lit "stray")]
                    (VStr (lit "stray")) (lit "b") Hpre
                    ltac:(discriminate))).
    reflexivity.
  - apply (proj2 (scan_stops_at_first_match [ra] rb [VDict rb]
                    (VStr (lit "stray")) (lit "b") Hpre
                    ltac:(discriminate))).
Defined.

(** ** utils.py: [clean_dict] and [validate_required_params] *)

Lemma dict_find_not_in (k : str) (d : dict) :
  ~ In k (dict_keys d) -> dict_find k d = None.
Proof.
  induction d as [|[k0 v0] d IH]; simpl; [reflexivity|].
  intros Hnin. destruct (str_eqb k0 k) eqn:E.
  - apply str_eqb_eq in E. exfalso. apply Hnin. left; exact E.
  - apply IH. intros Hin. apply Hnin. right; exact Hin.
Qed.

Lemma clean_dict_keys_incl (d : dict) (k : str) :
  In k (dict_keys (clean_dict d)) -> In k (dict_keys d).
Proof.
  unfold dict_keys, clean_dict. rewrite !in_map_iff.
  intros [kv [Hk Hin]]. exists kv. split; [exact Hk|].
  apply filter_In in Hin. tauto.
Qed.

Lemma clean_dict_find (d : dict) (k : str) :
  NoDup (dict_keys d) ->
  dict_find k (clean_dict d) =
  match dict_find k d with
  | Some v => if is_none v then None else Some v
  | None => None
  end.
Proof.
  induction d as [|[k0 v0] d IH]; intros Hnd; [reflexivity|].
  inversion Hnd as [|? ? Hnin Hnd']; subst.
  unfold clean_dict in *. cbn [filter snd dict_find].
  destruct (is_none v0) eqn:En; cbn [negb dict_find].
  - destruct (str_eqb k0 k) eqn:E; [|apply IH; exact Hnd'].
    apply str_eqb_eq in E; subst k0. rewrite En.
    apply dict_find_not_in. intros Hin. apply Hnin.
    apply (clean_dict_keys_incl d k). exact Hin.
  - destruct (str_eqb k0 k) eqn:E; [rewrite En; reflexivity|].
    apply IH; exact Hnd'.
Qed.

Lemma clean_dict_nodup (d : dict) :
  NoDup (dict_keys d) -> NoDup (dict_keys (clean_dict d)).
Proof.
  induction d as [|[k0 v0] d IH]; intros Hnd; [constructor|].
  inversion Hnd as [|? ? Hnin Hnd']; subst.
  unfold clean_dict in *. cbn [filter snd].
  destruct (negb (is_none v0)); [|apply IH; exact Hnd'].
  unfold dict_keys in *. cbn [map fst]. constructor; [|apply IH; exact Hnd'].
  intros Hin. apply Hnin. apply (clean_dict_keys_incl d k0). exact Hin.
Qed.

Lemma clean_dict_idempotent (d : dict) : clean_dict (clean_dict d) = clean_dict d.
Proof.
  unfold clean_dict. induction d as [|[k0 v0] d IH]; [reflexivity|].
  cbn [filter snd]. destruct (negb (is_none v0)) eqn:E; [|exact IH].
  cbn [filter snd]. rewrite E, IH. reflexivity.
Qed.

(** [clean_dict] on a dict (its keys are distinct): a key whose value is
    [None] is absent from the result, every other key keeps its value, and
    the keys are still distinct, in their order; a [None] inside a nested
    value stays where it is; cleaning twice is cleaning once. *)
Theorem clean_dict_lookup (d : dict) :
  NoDup (dict_keys d) ->
  (forall k, dict_find k d = Some VNone -> dict_find k (clean_dict d) = None) /\
  (forall k, dict_find k d <> Some VNone ->
             dict_find k (clean_dict d) = dict_find k d) /\
  NoDup (dict_keys (clean_dict d)) /\
  (forall k inner, dict_find k d = Some (VDict inner) ->
                   dict_find k (clean_dict d) = Some (VDict inner)) /\
  clean_dict (clean_dict d) = clean_dict d.
Proof.
  intros Hnd.
  split; [|split; [|split; [|split]]].
  - intros k Hk. rewrite clean_dict_find, Hk by exact Hnd. reflexivity.
  - intros k Hk. rewrite clean_dict_find by exact Hnd.
    destruct (dict_find k d) as [[ | | | | | ]|]; try reflexivity.
    exfalso; apply Hk; reflexivity.
  - apply clean_dict_nodup; exact Hnd.
  - intros k inner Hk. rewrite clean_dict_find, Hk by exact Hnd. reflexivity.
  - apply clean_dict_idempotent.
Qed.

(** The dict of the test suite, with a nested [None] added. *)
Lemma clean_dict_lookup_witness :
  clean_dict [(lit "key1", VStr (lit "value1")); (lit "key2", VNone);
              (lit "key3", VDict [(lit "inner", VNone)])] =
    [(lit "key1", VStr (lit "value1"));
     (lit "key3", VDict [(lit "inner", VNone)])] /\
  dict_find (lit "key2")
    (clean_dict [(lit "key1", VStr (lit "value1")); (lit "key2", VNone);
                 (lit "key3", VDict [(lit "inner", VNone)])]) = None.
Proof.
  split; [reflexivity|].
  assert (Hnd : NoDup (dict_keys
            [(lit "key1", VStr (lit "value1")); (lit "key2", VNone);
             (lit "key3", VDict [(lit "inner", VNone)])])).
  { repeat (apply NoDup_cons;
            [intros Hin; simpl in Hin;
             repeat (destruct Hin as [Hin|Hin]; [discriminate Hin|]);
             exact Hin|]).
    apply NoDup_nil. }
  apply (proj1 (clean_dict_lookup _ Hnd) (lit "key2")). reflexivity.
Defined.

Lemma missing_param_iff (params : dict) (p : str) :
  negb (dict_mem p params) || is_none (dict_get p params) = true <->
  dict_find p params = None \/ dict_find p params = Some VNone.
Proof.
  unfold dict_mem, dict_get.
  destruct (dict_find p params) as [v|]; simpl.
  - destruct v; simpl; split; try discriminate; auto;
      intros [H|H]; discriminate H.
  - split; auto.
Qed.

(** [validate_required_params] returns exactly when every required name is
    a key of [params] with a value other than [None]; otherwise it raises
    [ValueError], whose message lists, in the order of [required], the
    names that are missing or [None]. *)
Theorem validate_required_params_iff (params : dict) (required : list str) :
  (validate_required_params params required = Ok tt <->
   forall p, In p required ->
             exists v, dict_find p params = Some v /\ v <> VNone) /\
  (forall e, validate_required_params params required = Raise e ->
     e = ValueError (lit "Missing required parameters: " ++
                     join (lit ", ") (missing_params params required)) /\
     missing_params params required <> [] /\
     forall p, In p (missing_params params required) <->
               In p required /\
               (dict_find p params = None \/ dict_find p params = Some VNone)).
Proof.
  assert (Hmiss : forall p, In p (missing_params params required) <->
            In p required /\
            (dict_find p params = None \/ dict_find p params = Some VNone)).
  { intros p. unfold missing_params. rewrite filter_In, missing_param_iff.
    tauto. }
  unfold validate_required_params. split.
  - destruct (missing_params params required) as [|m ms] eqn:E.
    + split; [intros _ | reflexivity].
      intros p Hp. destruct (dict_find p params) as [v|] eqn:Ef.
      * exists v. split; [reflexivity|]. intros ->.
        apply (proj2 (Hmiss p)). auto.
      * exfalso. apply (proj2 (Hmiss p)). auto.
    + split; [discriminate|]. intros Hall. exfalso.
      assert (Hm : In m (m :: ms)) by (left; reflexivity).
      apply Hmiss in Hm. destruct Hm as [Hreq Hbad].
      destruct (Hall m Hreq) as [v [Hv Hne]].
      destruct Hbad as [Hb|Hb]; rewrite Hv in Hb; [discriminate|].
      injection Hb; auto.
  - intros e. destruct (missing_params params required) as [|m ms] eqn:E.
    + discriminate.
    + intros H; injection H; intros <-.
      split; [reflexivity|]. split; [discriminate|]. exact Hmiss.
Qed.

Example validate_required_params_message :
  validate_required_params
    [(lit "key1", VStr (lit "value1")); (lit "key2", VNone)]
    [lit "key1"; lit "key2"; lit "key3"] =
  Raise (ValueError (lit "Missing required parameters: key2, key3")).
Proof. reflexivity. Qed.

(** ** http.py: the outcomes of [post] *)

Lemma raise_for_status_none (status_code : Z) (reason url : str) :
  HTTPClient.raise_for_status status_code reason url = None <->
  ~ (400 <= status_code < 600)%Z.
Proof.
  unfold HTTPClient.raise_for_status.
  destruct ((400 <=? status_code) && (status_code <? 500))%Z eqn:E4.
  - apply andb_true_iff in E4. rewrite Z.leb_le, Z.ltb_lt in E4.
    split; [discriminate | lia].
  - destruct ((500 <=? status_code) && (status_code <? 600))%Z eqn:E5.
    + apply andb_true_iff in E5. rewrite Z.leb_le, Z.ltb_lt in E5.
      split; [discriminate | lia].
    + rewrite andb_false_iff, Z.leb_gt, Z.ltb_ge in E4, E5.
      split; [lia | reflexivity].
Qed.

Lemma post_posts_once (w : world) (self : HTTPClient.t) (url : str)
    (data : value) (headers : headers_t) :
  posts_of (fst (HTTPClient.post w self url data headers)) =
  [(url, to_json data, headers)].
Proof.
  unfold HTTPClient.post.
  destruct (session_post w _ url _ headers _) as [e | st reason rurl text | b].
  - reflexivity.
  - destruct (HTTPClient.raise_for_status st reason rurl); [reflexivity|].
    destruct (json_loads w text); reflexivity.
  - reflexivity.
Qed.

Lemma post_raises_class (w : world) (self : HTTPClient.t) (url : str)
    (data : value) (headers : headers_t) (e : exn) :
  snd (HTTPClient.post w self url data headers) = Raise e ->
  (exists msg, e = ConnectionError msg) \/
  (exists text, e = APIError (lit "Invalid JSON response from Corezoid API")
                             None (Some text)) \/
  (exists b, e = exn_of_builtin b).
Proof.
  rewrite post_outcome.
  destruct (session_post w _ url _ headers _) as [e' | st reason rurl text | b].
  - intros H; injection H; intros <-. left; eexists; reflexivity.
  - destruct (HTTPClient.raise_for_status st reason rurl) as [m|].
    + intros H; injection H; intros <-. left; eexists; reflexivity.
    + destruct (json_loads w text); [discriminate|].
      intros H; injection H; intros <-. right; left; eexists; reflexivity.
  - intros H; injection H; intros <-. right; right; eexists; reflexivity.
Qed.

(** [post] returns a value exactly when the exchange was completed with a
    status outside 400..599 and a body that is JSON, and the value is the
    decoded body: a status such as 204 or 304 is no error.  It raises in
    four cases and no other: [ConnectionError] with the text of the
    [RequestException] when the exchange failed; [ConnectionError] with the
    text of the [HTTPError] when the status is in 400..599; [APIError] with
    the raw body when the body is not JSON; and, when [session.post] raised
    an exception that is no [RequestException] (the [ValueError] of a
    timeout that is not positive), that exception itself, which [post]
    neither catches nor wraps.  Whatever the outcome, it called
    [session.post] once, with the compact JSON of [data] and the headers it
    was given: it does not call again. *)
Theorem post_returns_iff (w : world) (self : HTTPClient.t) (url : str)
    (data : value) (headers : headers_t) :
  let outcome :=
    session_post w (HTTPClient.max_retries self) url (to_json data) headers
                 (HTTPClient.timeout self) in
  let failure := lit "Failed to connect to Corezoid API: " in
  (forall v : value,
     snd (HTTPClient.post w self url data headers) = Ok v <->
     exists status_code reason rurl text,
       outcome = Completed status_code reason rurl text /\
       ~ (400 <= status_code < 600)%Z /\
       json_loads w text = Some v) /\
  (forall e : exn,
     snd (HTTPClient.post w self url data headers) = Raise e <->
     (exists e_str,
        outcome = Failed e_str /\ e = ConnectionError (failure ++ e_str)) \/
     (exists status_code reason rurl text e_str,
        outcome = Completed status_code reason rurl text /\
        (400 <= status_code < 600)%Z /\
        HTTPClient.raise_for_status status_code reason rurl = Some e_str /\
        e = ConnectionError (failure ++ e_str)) \/
     (exists status_code reason rurl text,
        outcome = Completed status_code reason rurl text /\
        ~ (400 <= status_code < 600)%Z /\
        json_loads w text = None /\
        e = APIError (lit "Invalid JSON response from Corezoid API")
                     None (Some text)) \/
     (exists b, outcome = Refused b /\ e = exn_of_builtin b)) /\
  posts_of (fst (HTTPClient.post w self url data headers)) =
    [(url, to_json data, headers)].
Proof.
  cbv zeta. split; [|split].
  - intros v. rewrite post_outcome.
    destruct (session_post w _ url _ headers _) as [e | st reason rurl text | b].
    + split; [discriminate | intros (? & ? & ? & ? & H & _); discriminate H].
    + destruct (HTTPClient.raise_for_status st reason rurl) as [m|] eqn:Er.
      * split; [discriminate|].
        intros (st' & reason' & rurl' & text' & H & Hst & _).
        assert (Hn := fun r u => proj2 (raise_for_status_none st' r u) Hst).
        inversion H; subst. rewrite Hn in Er. discriminate Er.
      * apply raise_for_status_none in Er.
        destruct (json_loads w text) as [v'|] eqn:Ej.
        -- split.
           ++ intros H; injection H; intros <-.
              exists st, reason, rurl, text. auto.
           ++ intros (st' & reason' & rurl' & text' & H & _ & Hj).
              injection H; intros; subst. congruence.
        -- split; [discriminate|].
           intros (st' & reason' & rurl' & text' & H & _ & Hj).
           injection H; intros; subst. congruence.
    + split; [discriminate | intros (? & ? & ? & ? & H & _); discriminate H].
  - intros e. rewrite post_outcome.
    destruct (session_post w _ url _ headers _) as [e' | st reason rurl text | b].
    + split.
      * intros H; injection H; intros <-. left. exists e'. split; reflexivity.
      * intros [(x & H & ->) | [(? & ? & ? & ? & ? & H & _) |
                 [(? & ? & ? & ? & H & _) | (? & H & _)]]];
          try discriminate H.
        injection H; intros <-. reflexivity.
    + destruct (HTTPClient.raise_for_status st reason rurl) as [m|] eqn:Er.
      * assert (Hst : (400 <= st < 600)%Z).
        { destruct (Z_le_dec 400 st) as [Hlo|Hlo];
            [destruct (Z_lt_dec st 600) as [Hhi|Hhi]; [lia|]|];
            assert (Hn : ~ (400 <= st < 600)%Z) by lia;
            apply (raise_for_status_none st reason rurl) in Hn;
            congruence. }
        split.
        -- intros H; injection H; intros <-. right; left.
           exists st, reason, rurl, text, m. auto.
        -- intros [(x & H & _) | [(st' & r' & u' & t' & m' & H & _ & Hm & ->) |
                   [(st' & r' & u' & t' & H & Hn & _) | (? & H & _)]]];
             try discriminate H.
           ++ injection H; intros; subst. rewrite Er in Hm.
              injection Hm; intros <-. reflexivity.
           ++ injection H; intros; subst. contradiction.
      * apply raise_for_status_none in Er.
        destruct (json_loads w text) as [v'|] eqn:Ej.
        -- split; [discriminate|].
           intros [(x & H & _) | [(st' & r' & u' & t' & m' & H & Hst & _) |
                   [(st' & r' & u' & t' & H & _ & Hj & _) | (? & H & _)]]];
             try discriminate H.
           ++ injection H; intros; subst. contradiction.
           ++ injection H; intros; subst. congruence.
        -- split.
           ++ intros H; injection H; intros <-. right; right; left.
              exists st, reason, rurl, text. auto.
           ++ intros [(x & H & _) | [(st' & r' & u' & t' & m' & H & Hst & _) |
                   [(st' & r' & u' & t' & H & _ & _ & ->) | (? & H & _)]]];
                try discriminate H.
              ** injection H; intros; subst. contradiction.
              ** injection H; intros; subst. reflexivity.
    + split.
      * intros H; injection H; intros <-. right; right; right.
        exists b. split; reflexivity.
      * intros [(x & H & _) | [(? & ? & ? & ? & ? & H & _) |
                 [(? & ? & ? & ? & H & _) | (b' & H & ->)]]];
          try discriminate H.
        injection H; intros <-. reflexivity.
  - apply post_posts_once.
Qed.

(** A timeout that is not positive is refused by the library with
    [ValueError] before anything is sent: that is what [post] raises, and
    not [ConnectionError]. *)
Example post_timeout_not_positive :
  let w := mkWorld 0 (fun _ => None)
             (fun _ _ _ _ timeout =>
                if (timeout <=? 0)%Z
                then Refused (BuiltinValueError
                                (lit "Attempted to set connect timeout to 0, but the timeout cannot be set to a value less than or equal to 0."))
                else Failed []) in
  HTTPClient.post w (HTTPClient.mk 0 3) (lit "u") VNone [] =
  ([EvLog DEBUG; EvLog DEBUG; EvPost (lit "u") (lit "null") []],
   Raise (ValueError (lit "Attempted to set connect timeout to 0, but the timeout cannot be set to a value less than or equal to 0."))).
Proof. reflexivity. Qed.

(** ** utils.py: the output of [to_json] is printable ASCII *)

Lemma forallb_join (f : N -> bool) (sep : str) (parts : list str) :
  forallb f sep = true ->
  Forall (fun p => forallb f p = true) parts ->
  forallb f (join sep parts) = true.
Proof.
  intros Hsep Hparts. induction Hparts as [|p rest Hp Hrest IH]; [reflexivity|].
  destruct rest as [|q rest'].
  - simpl. exact Hp.
  - change (join sep (p :: q :: rest'))
      with (p ++ sep ++ join sep (q :: rest')).
    rewrite !forallb_app, Hp, Hsep, IH. reflexivity.
Qed.

Lemma lower_hex_printable (c : N) : is_lower_hex c = true -> is_printable c = true.
Proof.
  unfold is_lower_hex, is_digit, is_printable.
  rewrite orb_true_iff, !andb_true_iff, !N.leb_le. lia.
Qed.

Lemma digit_printable (c : N) : is_digit c = true -> is_printable c = true.
Proof.
  unfold is_digit, is_printable. rewrite !andb_true_iff, !N.leb_le. lia.
Qed.

Lemma hex_fixed_printable (k : nat) (n : N) :
  forallb is_printable (hex_fixed k n) = true.
Proof.
  apply (forallb_impl is_lower_hex); [apply lower_hex_printable|].
  apply hex_fixed_lower.
Qed.

Lemma str_of_int_printable (z : Z) : forallb is_printable (str_of_int z) = true.
Proof.
  assert (HN : forall n, forallb is_printable (str_of_N n) = true).
  { intros n. apply (forallb_impl is_digit); [apply digit_printable|].
    apply str_of_N_digits. }
  destruct z as [|p|p]; unfold str_of_int.
  - apply HN.
  - apply HN.
  - cbn [forallb]. rewrite HN. reflexivity.
Qed.

Lemma escape_char_printable (c : N) : forallb is_printable (escape_char c) = true.
Proof.
  unfold escape_char.
  destruct (c =? 34); [reflexivity|].
  destruct (c =? 92); [reflexivity|].
  destruct (c =? 8); [reflexivity|].
  destruct (c =? 12); [reflexivity|].
  destruct (c =? 10); [reflexivity|].
  destruct (c =? 13); [reflexivity|].
  destruct (c =? 9); [reflexivity|].
  destruct ((32 <=? c) && (c <=? 126)) eqn:E.
  - cbn [forallb]. unfold is_printable. rewrite E. reflexivity.
  - destruct (c <? 65536);
      rewrite ?forallb_app, !hex_fixed_printable; reflexivity.
Qed.

Lemma basestring_printable (s : str) :
  forallb is_printable (encode_basestring_ascii s) = true.
Proof.
  unfold encode_basestring_ascii. rewrite !forallb_app.
  rewrite (forallb_flat_map is_printable escape_char s escape_char_printable).
  reflexivity.
Qed.

Lemma to_json_printable (v : value) : forallb is_printable (to_json v) = true.
Proof.
  unfold to_json.
  induction v as [ | [|] | z | s | l IH | d IH] using value_induction.
  - reflexivity.
  - reflexivity.
  - reflexivity.
  - apply str_of_int_printable.
  - apply basestring_printable.
  - rewrite json_dumps_list, !forallb_app.
    rewrite forallb_join; [reflexivity | reflexivity |].
    apply Forall_map. exact IH.
  - rewrite json_dumps_dict, !forallb_app.
    rewrite forallb_join; [reflexivity | reflexivity |].
    apply Forall_map. revert IH. apply Forall_impl.
    intros [k x] Hx. cbn [fst snd] in *.
    rewrite !forallb_app, basestring_printable, Hx. reflexivity.
Qed.

Lemma printable_encode_utf8 (s : str) :
  forallb is_printable s = true -> encode_utf8 s = Ok s.
Proof.
  induction s as [|c s IH]; [reflexivity|].
  cbn [forallb]. rewrite andb_true_iff. intros [Hc Hs].
  cbn [encode_utf8]. unfold utf8_char.
  assert (Hlt : (c <? 128) = true).
  { unfold is_printable in Hc. apply andb_true_iff in Hc.
    rewrite !N.leb_le in Hc. apply N.ltb_lt. lia. }
  rewrite Hlt, (IH Hs). reflexivity.
Qed.

Lemma printable_encodable (s : str) :
  forallb is_printable s = true -> encodable s = true.
Proof.
  intros H. unfold encodable. revert H. apply forallb_impl.
  intros c Hc. unfold utf8_char.
  assert (Hlt : (c <? 128) = true).
  { unfold is_printable in Hc. apply andb_true_iff in Hc.
    rewrite !N.leb_le in Hc. apply N.ltb_lt. lia. }
  rewrite Hlt. reflexivity.
Qed.

(** Whatever the value holds (text outside ASCII, control characters, lone
    surrogates), [to_json] gives printable ASCII characters only, from the
    space to the tilde: no raw line break or tab, every other character
    escaped.  So its UTF-8 encoding never fails and is the string itself,
    byte for character. *)
Theorem to_json_is_printable_ascii (v : value) :
  forallb is_printable (to_json v) = true /\
  isascii (to_json v) = true /\
  encode_utf8 (to_json v) = Ok (to_json v).
Proof.
  assert (H := to_json_printable v).
  split; [exact H|]. split.
  - revert H. apply forallb_impl. intros c Hc.
    unfold is_printable in Hc. apply andb_true_iff in Hc.
    rewrite !N.leb_le in Hc. unfold is_ascii_char. apply N.ltb_lt. lia.
  - apply printable_encode_utf8. exact H.
Qed.

(** ["é"], a line break, a double quote, a lone surrogate and an emoji. *)
Example to_json_escapes :
  to_json (VStr [233; 10; 34; 55296; 128512]) =
  qlit "'\u00e9\n\'\ud800\ud83d\ude00'".
Proof. vm_compute; reflexivity. Qed.

(** ** client.py: what [send] signs, posts and returns *)

Lemma generate_signature_raises (api_secret timestamp content : str) (e : exn) :
  generate_signature api_secret timestamp content = Raise e ->
  e = UnicodeEncodeError.
Proof.
  unfold generate_signature.
  destruct (encodable api_secret) eqn:Es.
  - destruct (encode_utf8_encodable _ Es) as [key ->]. simpl.
    destruct (encodable (timestamp ++ content)) eqn:Em.
    + destruct (encode_utf8_encodable _ Em) as [msg ->]. discriminate.
    + rewrite (encode_utf8_raises _ Em). simpl. congruence.
  - rewrite (encode_utf8_raises _ Es). simpl. congruence.
Qed.

(** The signature of a request of [send]: the content is ASCII, so only the
    secret can make it fail. *)
Lemma request_signature (api_secret : str) (now : Z) (operations : list dict) :
  encodable api_secret = true ->
  exists sig,
    generate_signature api_secret (str_of_int now)
                       (CorezoidClient._prepare_content operations) = Ok sig /\
    length sig = 64%nat /\
    verify_signature sig api_secret (str_of_int now)
                     (CorezoidClient._prepare_content operations) = Ok true.
Proof.
  intros Hs.
  assert (Ht : encodable (str_of_int now) = true)
    by (apply printable_encodable, str_of_int_printable).
  assert (Hc : encodable (CorezoidClient._prepare_content operations) = true)
    by (apply printable_encodable, to_json_printable).
  destruct (generate_signature_ok _ _ _ Hs Ht Hc) as (key & msg & _ & _ & Hgen).
  exists (HMAC.hexdigest key msg). split; [exact Hgen|].
  split; [apply hexdigest_length|].
  unfold verify_signature. rewrite Hgen. simpl.
  rewrite compare_digest_ascii.
  - rewrite str_eqb_refl. reflexivity.
  - apply (forallb_impl is_lower_hex); [apply lower_hex_ascii|].
    apply hexdigest_lower.
  - apply (forallb_impl is_lower_hex); [apply lower_hex_ascii|].
    apply hexdigest_lower.
Qed.

Lemma posts_of_app (tr1 tr2 : list event) :
  posts_of (tr1 ++ tr2) = posts_of tr1 ++ posts_of tr2.
Proof.
  induction tr1 as [|ev tr1 IH]; [reflexivity|].
  destruct ev; simpl; rewrite IH; reflexivity.
Qed.

Lemma clock_reads_app (tr1 tr2 : list event) :
  clock_reads (tr1 ++ tr2) = (clock_reads tr1 + clock_reads tr2)%nat.
Proof.
  induction tr1 as [|ev tr1 IH]; [reflexivity|].
  destruct ev; simpl; rewrite IH; reflexivity.
Qed.

Lemma post_clock_reads (w : world) (self : HTTPClient.t) (url : str)
    (data : value) (headers : headers_t) :
  clock_reads (fst (HTTPClient.post w self url data headers)) = 0%nat.
Proof.
  unfold HTTPClient.post.
  destruct (session_post w _ url _ headers _) as [e | st reason rurl text | b].
  - reflexivity.
  - destruct (HTTPClient.raise_for_status st reason rurl); [reflexivity|].
    destruct (json_loads w text); reflexivity.
  - reflexivity.
Qed.

(** How [send] on a list that is not empty ends, and the requests it
    made. *)
Lemma send_outcome (w : world) (self : CorezoidClient.t) (op : dict)
    (rest : list dict) :
  let cfg := CorezoidClient.config self in
  let timestamp := str_of_int (time_now w) in
  let content := CorezoidClient._prepare_content (op :: rest) in
  match generate_signature (api_secret cfg) timestamp content with
  | Raise e =>
      CorezoidClient.send w self (op :: rest) =
        ([EvLog DEBUG; EvClock; EvSign timestamp content], Raise e)
  | Ok signature =>
      let headers := auth_headers (api_login cfg) signature timestamp in
      match json_loads w content with
      | None =>
          CorezoidClient.send w self (op :: rest) =
            ([EvLog DEBUG; EvClock; EvSign timestamp content; EvLog DEBUG;
              EvLog ERROR], Raise JSONDecodeError)
      | Some body =>
          let p := HTTPClient.post w (CorezoidClient.http_client self)
                                   (api_url cfg) body headers in
          snd (CorezoidClient.send w self (op :: rest)) =
            match snd p with
            | Raise e => Raise e
            | Ok response_data => CorezoidResponse.init response_data
            end /\
          posts_of (fst (CorezoidClient.send w self (op :: rest))) =
            [(api_url cfg, to_json body, headers)] /\
          clock_reads (fst (CorezoidClient.send w self (op :: rest))) = 1%nat
      end
  end.
Proof.
  cbv zeta. unfold CorezoidClient.send.
  destruct (generate_signature _ _ _) as [sig|e] eqn:Eg; [|reflexivity].
  unfold CorezoidClient.from_json.
  destruct (json_loads w _) as [body|] eqn:Ej; [|reflexivity].
  unfold auth_headers.
  cbn [bind emit lift ret raise try_except fst snd app].
  set (headers := [(lit "Content-Type", lit "application/json");
                   (lit "X-API-Login", api_login (CorezoidClient.config self));
                   (lit "X-API-Signature", sig);
                   (lit "X-API-Timestamp", str_of_int (time_now w))]).
  assert (Hp := post_posts_once w (CorezoidClient.http_client self)
                  (api_url (CorezoidClient.config self)) body headers).
  assert (Hc := post_clock_reads w (CorezoidClient.http_client self)
                  (api_url (CorezoidClient.config self)) body headers).
  destruct (HTTPClient.post w _ _ body headers) as [tr [rd|e]];
    cbn [fst snd] in Hp, Hc;
    cbn [bind emit lift ret raise try_except fst snd app].
  - destruct (CorezoidResponse.init rd) as [resp|e];
      cbn [bind emit lift ret raise try_except fst snd app];
      rewrite ?app_nil_r;
      cbn [posts_of clock_reads];
      rewrite ?posts_of_app, ?clock_reads_app, ?Hp, ?Hc;
      repeat split; reflexivity.
  - rewrite ?app_nil_r;
      cbn [posts_of clock_reads];
      rewrite ?posts_of_app, ?clock_reads_app, ?Hp, ?Hc;
      repeat split; reflexivity.
Qed.

Lemma init_raises (response_data : value) (e : exn) :
  CorezoidResponse.init response_data = Raise e -> e = AttributeError.
Proof. destruct response_data; simpl; congruence. Qed.

Lemma send_not_validation_error (w : world) (self : CorezoidClient.t)
    (op : dict) (rest : list dict) (msg : str) :
  snd (CorezoidClient.send w self (op :: rest)) <> Raise (ValidationError msg).
Proof.
  assert (H := send_outcome w self op rest). cbv zeta in H.
  destruct (generate_signature _ _ _) as [sig|e] eqn:Eg.
  - destruct (json_loads w _) as [body|].
    + destruct H as [H _]. rewrite H.
      destruct (snd (HTTPClient.post w _ _ body _)) as [rd|e] eqn:Ep.
      * intros Hi. apply init_raises in Hi. discriminate Hi.
      * apply post_raises_class in Ep.
        destruct Ep as [[m ->] | [[t ->] | [[m | m |] ->]]]; discriminate.
    + rewrite H. discriminate.
  - rewrite H. simpl. apply generate_signature_raises in Eg. subst e.
    discriminate.
Qed.

Lemma create_task_outcome (w : world) (now : Z) (uuid : N)
    (self : CorezoidClient.t) (conv_id : conv_id_t) (data : dict)
    (ref : option str) :
  snd (TaskHelpers.create_task w now uuid self conv_id data ref) =
  snd (CorezoidClient.send w self
         [RequestOperation.create conv_id
            (match ref with
             | None => OperationBatch.generated_ref now uuid
             | Some r => r
             end) data]).
Proof.
  unfold TaskHelpers.create_task.
  destruct ref as [r|]; cbn [bind emit ret fst snd app];
    destruct (CorezoidClient.send w self _) as [tr res]; reflexivity.
Qed.

(** [send] raises [ValidationError] for the empty list and for nothing else:
    whatever the secret, the transport and the response.  The task helpers
    send one operation, so they never raise it. *)
Theorem validation_error_only_when_empty (w : world) (self : CorezoidClient.t) :
  (forall operations : list dict,
     (exists msg, snd (CorezoidClient.send w self operations) =
                  Raise (ValidationError msg)) <-> operations = []) /\
  (forall (batch : OperationBatch.t),
     (exists msg, snd (CorezoidClient.send_batch w self batch) =
                  Raise (ValidationError msg)) <->
     OperationBatch.size batch = 0%nat) /\
  (forall now uuid conv_id data ref schema async_mode msg,
     snd (TaskHelpers.create_task w now uuid self conv_id data ref) <>
       Raise (ValidationError msg) /\
     (forall r, snd (TaskHelpers.modify_task w self conv_id r data) <>
                Raise (ValidationError msg)) /\
     (forall r, snd (TaskHelpers.get_task w self conv_id r) <>
                Raise (ValidationError msg)) /\
     snd (TaskHelpers.upload_schema w self conv_id schema async_mode) <>
       Raise (ValidationError msg)).
Proof.
  split; [|split].
  - intros [|op rest].
    + split; [reflexivity | intros _; eexists; reflexivity].
    + split; [|discriminate].
      intros [msg H]. exfalso. exact (send_not_validation_error _ _ _ _ _ H).
  - intros [ops n]. unfold CorezoidClient.send_batch, OperationBatch.is_empty,
      OperationBatch.size, OperationBatch.get_operations; simpl.
    destruct ops as [|op rest]; simpl.
    + split; [reflexivity | intros _; eexists; reflexivity].
    + split; [|discriminate].
      intros [msg H]. exfalso. exact (send_not_validation_error _ _ _ _ _ H).
  - intros now uuid conv_id data ref schema async_mode msg.
    split; [rewrite create_task_outcome; apply send_not_validation_error|].
    split; [intros r; apply send_not_validation_error|].
    split; [intros r; apply send_not_validation_error|].
    apply send_not_validation_error.
Qed.

(** When the secret can be encoded, the content reads back as JSON, and the
    server completes the exchange with a status outside 400..599 and a JSON
    body, [send] returns what [CorezoidResponse] makes of the decoded body:
    for an object, the response, also when its [request_proc] is not
    ["ok"] (a failure reported by the engine is returned, not raised); for
    any other JSON value, [AttributeError]. *)
Theorem send_returns_decoded_response (w : world) (self : CorezoidClient.t)
    (op : dict) (rest : list dict) (body v : value)
    (status_code : Z) (reason rurl text : str) :
  encodable (api_secret (CorezoidClient.config self)) = true ->
  json_loads w (CorezoidClient._prepare_content (op :: rest)) = Some body ->
  (forall r u b h t,
     session_post w r u b h t = Completed status_code reason rurl text) ->
  ~ (400 <= status_code < 600)%Z ->
  json_loads w text = Some v ->
  snd (CorezoidClient.send w self (op :: rest)) = CorezoidResponse.init v /\
  (forall d, v = VDict d ->
     snd (CorezoidClient.send w self (op :: rest)) =
       Ok (CorezoidResponse.mk d (dict_get (lit "request_proc") d)
             (dict_get_default (lit "ops") (VList []) d))) /\
  ((forall d, v <> VDict d) ->
     snd (CorezoidClient.send w self (op :: rest)) = Raise AttributeError).
Proof.
  intros Hs Hbody Hpost Hst Hv.
  assert (Hsend : snd (CorezoidClient.send w self (op :: rest)) =
                  CorezoidResponse.init v).
  { assert (H := send_outcome w self op rest). cbv zeta in H.
    destruct (request_signature _ (time_now w) (op :: rest) Hs)
      as (sig & Hgen & _).
    rewrite Hgen, Hbody in H. destruct H as [H _]. rewrite H.
    rewrite post_outcome, Hpost.
    apply (raise_for_status_none status_code reason rurl) in Hst.
    rewrite Hst, Hv. reflexivity. }
  split; [exact Hsend|]. split.
  - intros d ->. rewrite Hsend. reflexivity.
  - intros Hnd. rewrite Hsend. destruct v; try reflexivity.
    exfalso. apply (Hnd d). reflexivity.
Qed.

(** A server that answers every request with status 200 and a body that
    decodes to [{"request_proc": "error", "error_message": "bad"}]. *)
Lemma send_returns_decoded_response_witness :
  let d := [(lit "request_proc", VStr (lit "error"));
            (lit "error_message", VStr (lit "bad"))] in
  let op := RequestOperation.get (ConvInt 1) (lit "r1") in
  let w := mkWorld 1700000000
             (fun s => if str_eqb s (lit "reply") then Some (VDict d)
                       else Some (VDict [(lit "ops", VList [VDict op])]))
             (fun _ _ _ _ _ => Completed 200 (lit "OK") (lit "u") (lit "reply")) in
  let self := CorezoidClient.mk (mkConfig (lit "L") (lit "S") (lit "u") 30 3)
                                (HTTPClient.mk 30 3) in
  snd (CorezoidClient.send w self [op]) =
    Ok (CorezoidResponse.mk d (VStr (lit "error")) (VList [])).
Proof.
  intros d op w self.
  apply (proj1 (proj2 (send_returns_decoded_response w self op [] 
                         (VDict [(lit "ops", VList [VDict op])]) (VDict d)
                         200 (lit "OK") (lit "u") (lit "reply")
                         eq_refl eq_refl (fun _ _ _ _ _ => eq_refl)
                         ltac:(lia) eq_refl)) d eq_refl).
Defined.

(** When the secret can be encoded and the content reads back as a value
    whose compact JSON is the content again, [send] makes exactly one
    request: to the configured URL, with the content as body, and with the
    four headers, where [X-API-Timestamp] is the one reading of the clock
    and [X-API-Signature] is a signature that [verify_signature] accepts
    for the secret, that timestamp and that body. *)
Theorem send_signs_what_it_posts (w : world) (self : CorezoidClient.t)
    (op : dict) (rest : list dict) (body : value) :
  let cfg := CorezoidClient.config self in
  let timestamp := current_timestamp w in
  let content := CorezoidClient._prepare_content (op :: rest) in
  encodable (api_secret cfg) = true ->
  json_loads w content = Some body ->
  to_json body = content ->
  exists signature : str,
    posts_of (fst (CorezoidClient.send w self (op :: rest))) =
      [(api_url cfg, content,
        auth_headers (api_login cfg) signature timestamp)] /\
    verify_signature signature (api_secret cfg) timestamp content = Ok true /\
    generate_signature (api_secret cfg) timestamp content = Ok signature /\
    clock_reads (fst (CorezoidClient.send w self (op :: rest))) = 1%nat.
Proof.
  cbv zeta. unfold current_timestamp. intros Hs Hbody Hround.
  assert (H := send_outcome w self op rest). cbv zeta in H.
  destruct (request_signature _ (time_now w) (op :: rest) Hs)
    as (sig & Hgen & _ & Hver).
  rewrite Hgen, Hbody in H. destruct H as (_ & Hposts & Hclock).
  exists sig. rewrite Hposts, Hround. repeat split; assumption.
Qed.

Lemma send_signs_what_it_posts_witness :
  let op := RequestOperation.get (ConvInt 1) (lit "r1") in
  let body := VDict [(lit "ops", VList [VDict op])] in
  let w := mkWorld 1700000000 (fun _ => Some body)
             (fun _ _ _ _ _ => Failed (lit "refused")) in
  let self := CorezoidClient.mk (mkConfig (lit "L") (lit "S") (lit "u") 30 3)
                                (HTTPClient.mk 30 3) in
  exists signature : str,
    posts_of (fst (CorezoidClient.send w self [op])) =
      [(lit "u", qlit "{'ops':[{'type':'get','conv_id':'1','obj':'task','ref':'r1'}]}",
        auth_headers (lit "L") signature (lit "1700000000"))] /\
    verify_signature signature (lit "S") (lit "1700000000")
      (qlit "{'ops':[{'type':'get','conv_id':'1','obj':'task','ref':'r1'}]}") =
      Ok true.
Proof.
  intros op body w self.
  destruct (send_signs_what_it_posts w self op [] body eq_refl eq_refl eq_refl)
    as (sig & Hposts & Hver & _).
  exists sig. split; [exact Hposts | exact Hver].
Defined.

(** When the exchange cannot be completed, [send] raises the
    [ConnectionError] of [post], with the text of the failure, after one
    request: it does not send again. *)
Theorem send_transport_failure (w : world) (self : CorezoidClient.t)
    (op : dict) (rest : list dict) (body : value) (e_str : str) :
  encodable (api_secret (CorezoidClient.config self)) = true ->
  json_loads w (CorezoidClient._prepare_content (op :: rest)) = Some body ->
  (forall r u b h t, session_post w r u b h t = Failed e_str) ->
  snd (CorezoidClient.send w self (op :: rest)) =
    Raise (ConnectionError (lit "Failed to connect to Corezoid API: " ++ e_str)) /\
  length (posts_of (fst (CorezoidClient.send w self (op :: rest)))) = 1%nat.
Proof.
  intros Hs Hbody Hpost.
  assert (H := send_outcome w self op rest). cbv zeta in H.
  destruct (request_signature _ (time_now w) (op :: rest) Hs)
    as (sig & Hgen & _).
  rewrite Hgen, Hbody in H. destruct H as (H & Hposts & _).
  rewrite H, Hposts, post_outcome, Hpost. split; reflexivity.
Qed.

Lemma send_transport_failure_witness :
  let op := RequestOperation.get (ConvInt 1) (lit "r1") in
  let w := mkWorld 1700000000 (fun _ => Some VNone)
             (fun _ _ _ _ _ => Failed (lit "refused")) in
  let self := CorezoidClient.mk (mkConfig (lit "L") (lit "S") (lit "u") 30 3)
                                (HTTPClient.mk 30 3) in
  snd (CorezoidClient.send w self [op]) =
    Raise (ConnectionError (lit "Failed to connect to Corezoid API: refused")).
Proof.
  intros op w self.
  apply (proj1 (send_transport_failure w self op [] VNone (lit "refused")
                  eq_refl eq_refl (fun _ _ _ _ _ => eq_refl))).
Defined.

(** ** utils.py: what the signature does not tell apart *)

Lemma encode_utf8_app (a b : str) (ka kb : bytes) :
  encode_utf8 a = Ok ka -> encode_utf8 b = Ok kb ->
  encode_utf8 (a ++ b) = Ok (ka ++ kb).
Proof.
  revert ka. induction a as [|c a IH]; intros ka Ha Hb.
  - injection Ha; intros <-. exact Hb.
  - cbn [encode_utf8 app] in *.
    destruct (utf8_char c) as [bs|]; [|discriminate Ha].
    destruct (encode_utf8 a) as [ra|e]; [|discriminate Ha].
    injection Ha; intros <-.
    rewrite (IH ra eq_refl Hb). simpl. rewrite app_assoc. reflexivity.
Qed.

Lemma encode_utf8_nuls (k : nat) : encode_utf8 (repeat 0 k) = Ok (repeat 0 k).
Proof. induction k as [|k IH]; [reflexivity|]. simpl. rewrite IH. reflexivity. Qed.

Lemma hmac_key_zero_padding (key msg : bytes) (k : nat) :
  (length key + k <= SHA256.block_size)%nat ->
  HMAC.digest (key ++ repeat 0 k) msg = HMAC.digest key msg.
Proof.
  unfold SHA256.block_size. intros Hlen. unfold HMAC.digest.
  assert (E1 : (SHA256.block_size <? length (key ++ repeat 0%N k))%nat = false).
  { apply Nat.ltb_ge. rewrite length_app, repeat_length.
    unfold SHA256.block_size. lia. }
  assert (E2 : (SHA256.block_size <? length key)%nat = false).
  { apply Nat.ltb_ge. unfold SHA256.block_size. lia. }
  rewrite E1, E2.
  replace ((key ++ repeat 0 k) ++
           repeat 0 (SHA256.block_size - length (key ++ repeat 0 k)))
    with (key ++ repeat 0 (SHA256.block_size - length key)); [reflexivity|].
  rewrite <- app_assoc, <- repeat_app. f_equal. f_equal.
  rewrite length_app, repeat_length. unfold SHA256.block_size. lia.
Qed.

(** HMAC fills a key shorter than a block with zero octets, so a secret and
    the same secret followed by NUL characters, as long as its UTF-8
    encoding holds in 64 octets, sign every request alike. *)
Theorem secret_trailing_nul_ignored (api_secret timestamp content : str)
    (key : bytes) (k : nat) :
  encode_utf8 api_secret = Ok key ->
  (length key + k <= 64)%nat ->
  generate_signature (api_secret ++ repeat 0 k) timestamp content =
  generate_signature api_secret timestamp content.
Proof.
  intros Hkey Hlen. unfold generate_signature.
  rewrite (encode_utf8_app _ _ _ _ Hkey (encode_utf8_nuls k)), Hkey. simpl.
  destruct (encode_utf8 (timestamp ++ content)) as [msg|e]; [|reflexivity].
  simpl. unfold HMAC.hexdigest.
  rewrite hmac_key_zero_padding by exact Hlen. reflexivity.
Qed.

Lemma secret_trailing_nul_ignored_witness :
  generate_signature (lit "test-secret" ++ [0; 0]) (lit "1234567890")
                     (qlit "{'key':'value'}") =
  generate_signature (lit "test-secret") (lit "1234567890")
                     (qlit "{'key':'value'}").
Proof.
  apply (secret_trailing_nul_ignored (lit "test-secret") (lit "1234567890")
           (qlit "{'key':'value'}") (lit "test-secret") 2 eq_refl).
  simpl. lia.
Defined.

(** ** batch.py and client.py: when two generated references are equal *)

Lemma app_inj_length {A} (x x' t t' : list A) :
  length x = length x' -> x ++ t = x' ++ t' -> x = x' /\ t = t'.
Proof.
  revert x'. induction x as [|a x IH]; intros [|a' x'] Hlen H;
    try discriminate Hlen.
  - split; [reflexivity | exact H].
  - simpl in H. injection H; intros H' <-.
    destruct (IH x' ltac:(simpl in Hlen; lia) H') as [-> ->].
    split; reflexivity.
Qed.

Lemma app_inj_tail_length {A} (x x' t t' : list A) :
  length t = length t' -> x ++ t = x' ++ t' -> x = x' /\ t = t'.
Proof.
  intros Hlen H. apply app_inj_length; [|exact H].
  apply (f_equal (@length A)) in H. rewrite !length_app in H. lia.
Qed.

Lemma hex_digit_inj (a b : N) : hex_digit a = hex_digit b <-> a mod 16 = b mod 16.
Proof.
  unfold hex_digit.
  assert (Ha : a mod 16 < 16) by (apply N.mod_lt; discriminate).
  assert (Hb : b mod 16 < 16) by (apply N.mod_lt; discriminate).
  generalize dependent (a mod 16). generalize dependent (b mod 16).
  intros y Hy x Hx.
  destruct (N.ltb_spec x 10), (N.ltb_spec y 10); split; intros; lia.
Qed.

Lemma hex_fixed_inj (k : nat) (a b : N) :
  hex_fixed k a = hex_fixed k b <-> a mod 16 ^ N.of_nat k = b mod 16 ^ N.of_nat k.
Proof.
  revert a b. induction k as [|k IH]; intros a b.
  - simpl. rewrite !N.mod_1_r. tauto.
  - cbn [hex_fixed].
    replace (16 ^ N.of_nat (S k)) with (16 * 16 ^ N.of_nat k)
      by (rewrite Nat2N.inj_succ, N.pow_succ_r'; reflexivity).
    rewrite !N.Div0.mod_mul_r.
    split.
    + intros H. apply app_inj_tail in H. destruct H as [H1 H2].
      apply IH in H1. apply hex_digit_inj in H2. rewrite H1, H2. reflexivity.
    + intros H.
      assert (Ha : a mod 16 < 16) by (apply N.mod_lt; discriminate).
      assert (Hb : b mod 16 < 16) by (apply N.mod_lt; discriminate).
      remember ((a / 16) mod 16 ^ N.of_nat k) as X eqn:EX.
      remember ((b / 16) mod 16 ^ N.of_nat k) as Y eqn:EY.
      remember (a mod 16) as x eqn:Ex. remember (b mod 16) as y eqn:Ey.
      assert (H2 : x = y) by lia.
      assert (H1 : X = Y) by lia.
      subst X Y x y.
      apply IH in H1. apply hex_digit_inj in H2. rewrite H1, H2. reflexivity.
Qed.

Lemma firstn_hex_fixed (k m : nat) (n : N) :
  firstn k (hex_fixed (k + m) n) = hex_fixed k (n / 16 ^ N.of_nat m).
Proof.
  revert n. induction m as [|m IH]; intros n.
  - rewrite Nat.add_0_r. simpl. rewrite N.div_1_r.
    rewrite <- (hex_fixed_length k n) at 1. apply firstn_all.
  - rewrite Nat.add_succ_r. cbn [hex_fixed].
    rewrite firstn_app, hex_fixed_length.
    replace (k - (k + m))%nat with 0%nat by lia.
    rewrite firstn_O, app_nil_r, IH.
    rewrite Nat2N.inj_succ, N.pow_succ_r', N.Div0.div_div. reflexivity.
Qed.

Lemma str_of_int_inj (a b : Z) : str_of_int a = str_of_int b -> a = b.
Proof.
  intros H. rewrite <- (int_of_str_of_int a), <- (int_of_str_of_int b), H.
  reflexivity.
Qed.

(** Two generated references are the same string exactly when the clock
    gave the same second and the two UUIDs have the same first eight
    hexadecimal digits, that is the same 32 leading bits: the other 96 bits
    of the UUID play no part. *)
Theorem generated_ref_collision (now now' : Z) (uuid uuid' : N) :
  OperationBatch.generated_ref now uuid = OperationBatch.generated_ref now' uuid'
  <->
  now = now' /\
  (uuid / 2 ^ 96) mod 2 ^ 32 = (uuid' / 2 ^ 96) mod 2 ^ 32.
Proof.
  unfold OperationBatch.generated_ref.
  change 32%nat with (8 + 24)%nat.
  rewrite !firstn_hex_fixed.
  change (16 ^ N.of_nat 24) with (2 ^ 96).
  assert (Hhex : forall a b, hex_fixed 8 a = hex_fixed 8 b <->
                             a mod 2 ^ 32 = b mod 2 ^ 32)
    by (intros a b; apply (hex_fixed_inj 8)).
  split.
  - intros H. apply app_inv_head in H.
    rewrite !app_assoc in H.
    apply app_inj_tail_length in H; [|rewrite !hex_fixed_length; reflexivity].
    destruct H as [H1 H2]. apply app_inj_tail in H1. destruct H1 as [H1 _].
    split; [apply str_of_int_inj; exact H1 | apply Hhex; exact H2].
  - intros [-> H]. apply Hhex in H. rewrite H. reflexivity.
Qed.

(** ** config.py *)

Lemma py_or_falsy (a b : value) : truthy a = false -> py_or a b = b.
Proof. unfold py_or; intros ->; reflexivity. Qed.

Lemma py_or_truthy (a b : value) : truthy a = true -> py_or a b = a.
Proof. unfold py_or; intros ->; reflexivity. Qed.

Lemma py_or_absent (a b : value) :
  py_or (if truthy a then a else VNone) b = py_or a b.
Proof. unfold py_or. destruct (truthy a) eqn:E; [rewrite E|]; reflexivity. Qed.

Lemma py_or_twice (a e : value) : py_or (py_or a e) e = py_or a e.
Proof.
  unfold py_or. destruct (truthy a) eqn:Ea; [rewrite Ea; reflexivity|].
  destruct (truthy e); reflexivity.
Qed.

Lemma py_or_default_truthy (a d : value) :
  truthy d = true -> truthy (py_or a d) = true.
Proof. unfold py_or. destruct (truthy a) eqn:E; auto. Qed.

(** An argument of [Config] that is false as a condition is an argument not
    given: the empty string for a credential or the URL, and [0] for
    [timeout] or [max_retries], give the configuration that [None] gives,
    taken from the environment or the defaults. *)
Theorem config_falsy_argument_is_absent (sys : system)
    (api_login api_secret api_url timeout max_retries : value) :
  let given (a : value) := if truthy a then a else VNone in
  ConfigClass.init sys api_login api_secret api_url timeout max_retries =
  ConfigClass.init sys (given api_login) (given api_secret) (given api_url)
                       (given timeout) (given max_retries) /\
  ConfigClass.init sys (VStr []) (VStr []) (VStr []) (VInt 0) (VInt 0) =
  ConfigClass.from_env sys.
Proof.
  cbv zeta. unfold ConfigClass.from_env, ConfigClass.init.
  rewrite !py_or_absent. split; reflexivity.
Qed.

(** What [init] makes of the number it kept: [VInt z] is chosen when [z] is
    not 0; when it is 0, the environment and the default are asked again. *)
Lemma config_round_trip_int (sys : system) (arg env : value) (default z : Z) :
  truthy arg = false \/ z <> 0%Z ->
  py_int sys (py_or (py_or arg env) (VInt default)) = Ok z ->
  py_int sys (py_or (py_or (VInt z) env) (VInt default)) = Ok z.
Proof.
  intros Harg H.
  destruct (Z.eq_dec z 0) as [-> | Hz].
  - rewrite (py_or_falsy (VInt 0)) by reflexivity.
    destruct Harg as [Hf | Hne]; [|congruence].
    rewrite (py_or_falsy arg) in H by exact Hf. exact H.
  - assert (Ht : truthy (VInt z) = true)
      by (simpl; apply negb_true_iff, Z.eqb_neq; exact Hz).
    rewrite (py_or_truthy (VInt z)) by exact Ht.
    rewrite (py_or_truthy (VInt z)) by exact Ht.
    reflexivity.
Qed.

(** In one environment, a configuration built by the constructor is given
    back by [from_dict] from its [to_dict], whatever the arguments were,
    provided that for [timeout] and for [max_retries] the argument was false
    as a condition ([None], [0], the empty string) or the number kept is not
    0.  What is left out is an argument that is true as a condition and that
    [int] turns into 0: [to_dict] writes the 0, which [from_dict] takes for
    an argument not given. *)
Theorem config_dict_round_trip (sys : system)
    (api_login api_secret api_url timeout max_retries : value)
    (c : ConfigClass.t) :
  truthy timeout = false \/ ConfigClass.timeout c <> 0%Z ->
  truthy max_retries = false \/ ConfigClass.max_retries c <> 0%Z ->
  ConfigClass.init sys api_login api_secret api_url timeout max_retries = Ok c ->
  ConfigClass.from_dict sys (ConfigClass.to_dict c) = Ok c.
Proof.
  intros Ht Hr Hinit.
  unfold ConfigClass.from_dict, ConfigClass.to_dict.
  change (dict_get (lit "api_login") _) with (ConfigClass.api_login c).
  change (dict_get (lit "api_secret") _) with (ConfigClass.api_secret c).
  change (dict_get (lit "api_url") _) with (ConfigClass.api_url c).
  change (dict_get (lit "timeout") _) with (VInt (ConfigClass.timeout c)).
  change (dict_get (lit "max_retries") _) with (VInt (ConfigClass.max_retries c)).
  unfold ConfigClass.init in *.
  destruct (py_int sys (py_or (py_or timeout _) _)) as [t|e] eqn:Et;
    [|discriminate Hinit].
  destruct (py_int sys (py_or (py_or max_retries _) _)) as [r|e] eqn:Er;
    [|discriminate Hinit].
  simpl in Hinit. injection Hinit; intros <-. cbn [ConfigClass.api_login
    ConfigClass.api_secret ConfigClass.api_url ConfigClass.timeout
    ConfigClass.max_retries] in *.
  rewrite (config_round_trip_int sys _ _ _ _ Ht Et).
  rewrite (config_round_trip_int sys _ _ _ _ Hr Er).
  simpl. rewrite !py_or_twice.
  rewrite (py_or_truthy (py_or _ (VStr ConfigClass.DEFAULT_API_URL)))
    by (apply py_or_default_truthy; reflexivity).
  rewrite (py_or_truthy (py_or _ (VStr ConfigClass.DEFAULT_API_URL)))
    by (apply py_or_default_truthy; reflexivity).
  reflexivity.
Qed.

(** An environment that sets the login and a timeout of ["0"], read as the
    number 0, and a constructor given the secret and [True] for the
    retries, kept as 1; the rest comes from the defaults. *)
Lemma config_dict_round_trip_witness :
  let sys := mkSystem
               (fun name => if str_eqb name (lit "COREZOID_API_LOGIN")
                            then Some (lit "env-login")
                            else if str_eqb name (lit "COREZOID_TIMEOUT")
                            then Some (lit "0") else None)
               (fun s => Some (int_of_str s)) in
  let c := ConfigClass.mk (VStr (lit "env-login")) (VStr (lit "s3cret"))
             (VStr ConfigClass.DEFAULT_API_URL) 0 1 in
  ConfigClass.init sys VNone (VStr (lit "s3cret")) VNone VNone (VBool true)
    = Ok c /\
  ConfigClass.from_dict sys (ConfigClass.to_dict c) = Ok c.
Proof.
  intros sys c. split; [reflexivity|].
  apply (config_dict_round_trip sys VNone (VStr (lit "s3cret")) VNone VNone
           (VBool true) c).
  - left; reflexivity.
  - right; discriminate.
  - reflexivity.
Defined.

(** The condition is needed: [Config(timeout="0")] keeps the timeout 0, and
    what [from_dict] builds from its [to_dict] has the default of 30. *)
Example config_zero_from_text_not_given_back :
  let sys := mkSystem (fun _ => None) (fun s => Some (int_of_str s)) in
  exists c,
    ConfigClass.init sys VNone VNone VNone (VStr (lit "0")) VNone = Ok c /\
    ConfigClass.timeout c = 0%Z /\
    ConfigClass.from_dict sys (ConfigClass.to_dict c) =
      Ok (ConfigClass.mk VNone VNone (VStr ConfigClass.DEFAULT_API_URL) 30 3).
Proof.
  intros sys.
  exists (ConfigClass.mk VNone VNone (VStr ConfigClass.DEFAULT_API_URL) 0 3).
  repeat split.
Qed.

(** A client that was constructed has credentials that are true as
    conditions, so not [None] and not empty, and an HTTP client with the
    timeout and the retries of its configuration; a configuration object
    given to the constructor is the one kept, whatever the other arguments.
    With credentials and URL that are strings, it is a client of [send]
    whose login and secret are not empty. *)
Theorem constructed_client_has_credentials (sys : system)
    (api_login api_secret api_url : value) (config : option ConfigClass.t)
    (cfg : ConfigClass.t) (http : HTTPClient.t) :
  client_init sys api_login api_secret api_url config = Ok (cfg, http) ->
  truthy (ConfigClass.api_login cfg) = true /\
  truthy (ConfigClass.api_secret cfg) = true /\
  http = HTTPClient.mk (ConfigClass.timeout cfg) (ConfigClass.max_retries cfg) /\
  (forall c, config = Some c -> cfg = c) /\
  (forall login secret url,
     ConfigClass.api_login cfg = VStr login ->
     ConfigClass.api_secret cfg = VStr secret ->
     ConfigClass.api_url cfg = VStr url ->
     login <> [] /\ secret <> [] /\
     client_of cfg http =
       Some (CorezoidClient.mk
               (mkConfig login secret url (ConfigClass.timeout cfg)
                         (ConfigClass.max_retries cfg)) http)).
Proof.
  unfold client_init. intros H.
  assert (Hc : exists c0,
            match config with
            | Some c => Ok c
            | None => ConfigClass.init sys api_login api_secret api_url VNone VNone
            end = Ok c0 /\ (forall c, config = Some c -> c0 = c)).
  { destruct config as [c|].
    - exists c. split; [reflexivity|]. intros c' Hc'. congruence.
    - destruct (ConfigClass.init sys api_login api_secret api_url VNone VNone)
        as [c0|e]; [|discriminate H].
      exists c0. split; [reflexivity | discriminate]. }
  destruct Hc as (c0 & Hc0 & Hsame). rewrite Hc0 in H. simpl in H.
  unfold ConfigClass.validate in H.
  destruct (truthy (ConfigClass.api_login c0)) eqn:El; [|discriminate H].
  destruct (truthy (ConfigClass.api_secret c0)) eqn:Es; [|discriminate H].
  simpl in H. injection H; intros <- <-.
  split; [exact El|]. split; [exact Es|]. split; [reflexivity|].
  split; [exact Hsame|].
  intros login secret url Hl Hsec Hu.
  rewrite Hl in El. rewrite Hsec in Es.
  split; [intros ->; discriminate El|].
  split; [intros ->; discriminate Es|].
  unfold client_of. rewrite Hl, Hsec, Hu. reflexivity.
Qed.

(** The client of the test suite, in an environment that sets nothing. *)
Lemma constructed_client_has_credentials_witness :
  let sys := mkSystem (fun _ => None) (fun s => Some (int_of_str s)) in
  exists cfg http,
    client_init sys (VStr (lit "test-login")) (VStr (lit "test-secret")) VNone
                None = Ok (cfg, http) /\
    client_of cfg http =
      Some (CorezoidClient.mk
              (mkConfig (lit "test-login") (lit "test-secret")
                        ConfigClass.DEFAULT_API_URL 30 3)
              (HTTPClient.mk 30 3)).
Proof.
  intros sys.
  exists (ConfigClass.mk (VStr (lit "test-login")) (VStr (lit "test-secret"))
            (VStr ConfigClass.DEFAULT_API_URL) 30 3), (HTTPClient.mk 30 3).
  split; [reflexivity|].
  apply (constructed_client_has_credentials sys (VStr (lit "test-login"))
           (VStr (lit "test-secret")) VNone None _ _ eq_refl);
    reflexivity.
Defined.

(** Without credentials in the arguments or the environment the constructor
    raises [ValueError], for the login first. *)
Example client_without_credentials :
  client_init (mkSystem (fun _ => None) (fun s => Some (int_of_str s)))
              VNone (VStr []) VNone None =
  Raise (ValueError (lit "API login is required")).
Proof. reflexivity. Qed.

(** ** utils.py: [current_timestamp] *)

(** The timestamp is the decimal writing of the clock's whole seconds: it
    reads back to that number, it is printable ASCII, and for a clock that
    is not before the epoch it is a string of digits that is not empty. *)
Theorem timestamp_is_decimal (w : world) :
  int_of_str (current_timestamp w) = time_now w /\
  forallb is_printable (current_timestamp w) = true /\
  ((0 <= time_now w)%Z ->
   forallb is_digit (current_timestamp w) = true /\ current_timestamp w <> []) /\
  (forall w', current_timestamp w = current_timestamp w' ->
              time_now w = time_now w').
Proof.
  unfold current_timestamp.
  split; [apply int_of_str_of_int|].
  split; [apply str_of_int_printable|].
  split; [apply str_of_int_nonneg|].
  intros w'. apply str_of_int_inj.
Qed.

(** ** client.py: batches and task helpers through [send] *)

(** A batch filled in order, within its capacity, is sent as the list of
    its operations in that order: [send_batch] on it is [send] on the
    list. *)
Theorem send_batch_sends_in_order (w : world) (self : CorezoidClient.t)
    (N : Z) (op : dict) (rest : list dict) :
  (Z.of_nat (length (op :: rest)) <= N)%Z ->
  exists b : OperationBatch.t,
    OperationBatch.add_all (op :: rest) (OperationBatch.init N) = (Ok tt, b) /\
    OperationBatch.get_operations b = op :: rest /\
    CorezoidClient.send_batch w self b = CorezoidClient.send w self (op :: rest).
Proof.
  intros Hlen. eexists. split.
  - apply add_all_fits. simpl OperationBatch.operations. simpl length in *.
    simpl OperationBatch.max_batch_size. lia.
  - split; reflexivity.
Qed.

Lemma send_batch_sends_in_order_witness :
  let a := RequestOperation.get (ConvInt 1) (lit "a") in
  let b := RequestOperation.get (ConvInt 1) (lit "b") in
  let w := mkWorld 0 (fun _ => None) (fun _ _ _ _ _ => Failed []) in
  let self := CorezoidClient.mk (mkConfig (lit "L") (lit "S") (lit "u") 30 3)
                                (HTTPClient.mk 30 3) in
  CorezoidClient.send_batch w self (OperationBatch.mk [a; b] 3) =
  CorezoidClient.send w self [a; b].
Proof.
  intros a b w self.
  destruct (send_batch_sends_in_order w self 3 a [b] ltac:(simpl; lia))
    as (batch & Hadd & _ & Hsend).
  injection Hadd; intros <-. exact Hsend.
Defined.

Lemma upload_schema_envelope (folder_id : conv_id_t) (schema : str)
    (async_mode : bool) :
  CorezoidClient._prepare_content
    [[ (lit "type", VStr (lit "create"));
       (lit "obj", VStr (lit "obj_scheme"));
       (lit "folder_id", VStr (py_str folder_id));
       (lit "scheme", VStr schema);
       (lit "async", VStr (if async_mode then lit "true" else lit "false")) ]] =
  qlit "{'ops':[{'type':'create','obj':'obj_scheme','folder_id':" ++
  encode_basestring_ascii (py_str folder_id) ++
  qlit ",'scheme':" ++ encode_basestring_ascii schema ++
  qlit ",'async':" ++
  (if async_mode then qlit "'true'" else qlit "'false'") ++
  lit "}]}".
Proof.
  unfold CorezoidClient._prepare_content, to_json.
  rewrite json_dumps_dict. cbn [map join fst snd].
  rewrite json_dumps_list. cbn [map join].
  rewrite json_dumps_dict. cbn [map join fst snd json_dumps].
  change (encode_basestring_ascii (lit "ops")) with (qlit "'ops'").
  change (encode_basestring_ascii (lit "type")) with (qlit "'type'").
  change (encode_basestring_ascii (lit "create")) with (qlit "'create'").
  change (encode_basestring_ascii (lit "obj")) with (qlit "'obj'").
  change (encode_basestring_ascii (lit "obj_scheme")) with (qlit "'obj_scheme'").
  change (encode_basestring_ascii (lit "folder_id")) with (qlit "'folder_id'").
  change (encode_basestring_ascii (lit "scheme")) with (qlit "'scheme'").
  change (encode_basestring_ascii (lit "async")) with (qlit "'async'").
  destruct async_mode.
  - change (encode_basestring_ascii (lit "true")) with (qlit "'true'").
    repeat rewrite <- app_assoc. reflexivity.
  - change (encode_basestring_ascii (lit "false")) with (qlit "'false'").
    repeat rewrite <- app_assoc. reflexivity.
Qed.

(** [upload_schema] signs and sends one operation whose fields are all JSON
    strings: the folder as [str(folder_id)], the schema as one escaped
    string (not as nested JSON), and [async] as the string ["true"] or
    ["false"] (not a JSON boolean). *)
Theorem upload_schema_content (w : world) (self : CorezoidClient.t)
    (folder_id : conv_id_t) (schema : str) (async_mode : bool) :
  exists tr : list event,
    fst (TaskHelpers.upload_schema w self folder_id schema async_mode) =
    EvLog DEBUG :: EvClock ::
    EvSign (current_timestamp w)
      (qlit "{'ops':[{'type':'create','obj':'obj_scheme','folder_id':" ++
       encode_basestring_ascii (py_str folder_id) ++
       qlit ",'scheme':" ++ encode_basestring_ascii schema ++
       qlit ",'async':" ++
       (if async_mode then qlit "'true'" else qlit "'false'") ++
       lit "}]}") :: tr.
Proof.
  unfold TaskHelpers.upload_schema, CorezoidClient.send.
  rewrite !trace_emit_bind, upload_schema_envelope.
  eexists. reflexivity.
Qed.

Lemma trace_bind_emit_ret {A B} (ev : event) (a : A) (k : A -> io B) :
  fst (bind (bind (emit ev) (fun _ => ret a)) k) = ev :: fst (k a).
Proof. unfold bind, emit, ret. destruct (k a); reflexivity. Qed.

Lemma trace_bind_ret {A B} (a : A) (k : A -> io B) :
  fst (bind (ret a) k) = fst (k a).
Proof. unfold bind, ret. destruct (k a); reflexivity. Qed.

(** [create_task] without a reference reads the clock for it, then signs
    and sends the one create operation that carries the generated
    reference, of the form [task-<digits>-<8 lowercase hex chars>] for a
    clock not before the epoch; with a reference, it sends the create
    operation with that reference, and reads the clock for the timestamp
    only. *)
Theorem create_task_reference (w : world) (now : Z) (uuid : N)
    (self : CorezoidClient.t) (conv_id : conv_id_t) (data : dict) :
  (0 <= now)%Z ->
  (exists (ref : str) (tr : list event),
     matches_task_ref ref = true /\
     fst (TaskHelpers.create_task w now uuid self conv_id data None) =
       EvClock :: EvLog DEBUG :: EvClock ::
       EvSign (current_timestamp w)
         (CorezoidClient._prepare_content
            [RequestOperation.create conv_id ref data]) :: tr) /\
  (forall ref : str,
     exists tr : list event,
       fst (TaskHelpers.create_task w now uuid self conv_id data (Some ref)) =
         EvLog DEBUG :: EvClock ::
         EvSign (current_timestamp w)
           (CorezoidClient._prepare_content
              [RequestOperation.create conv_id ref data]) :: tr).
Proof.
  intros Hnow. unfold TaskHelpers.create_task, current_timestamp. split.
  - exists (OperationBatch.generated_ref now uuid). eexists.
    split; [apply generated_ref_matches; exact Hnow|].
    rewrite trace_bind_emit_ret. unfold CorezoidClient.send.
    rewrite !trace_emit_bind. reflexivity.
  - intros ref. eexists.
    rewrite trace_bind_ret. unfold CorezoidClient.send.
    rewrite !trace_emit_bind. reflexivity.
Qed.

Lemma create_task_reference_witness :
  let w := mkWorld 1700000001 (fun _ => None) (fun _ _ _ _ _ => Failed []) in
  let self := CorezoidClient.mk (mkConfig (lit "L") (lit "S") (lit "u") 30 3)
                                (HTTPClient.mk 30 3) in
  exists (ref : str) (tr : list event),
    matches_task_ref ref = true /\
    fst (TaskHelpers.create_task w 1700000000 0xabcdef0123456789abcdef0123456789
           self (ConvInt 42) [(lit "x", VInt 1)] None) =
      EvClock :: EvLog DEBUG :: EvClock ::
      EvSign (lit "1700000001")
        (CorezoidClient._prepare_content
           [RequestOperation.create (ConvInt 42) ref [(lit "x", VInt 1)]]) :: tr.
Proof.
  intros w self.
  exact (proj1 (create_task_reference w 1700000000
                  0xabcdef0123456789abcdef0123456789 self (ConvInt 42)
                  [(lit "x", VInt 1)] ltac:(lia))).
Defined.
